(** * CodeBoost-AI front end: the Index page and the IssuesPanel component

    A shallow embedding of the React components of the repository
    ([IssuesPanel.tsx] and the [Index] page) together with the properties
    of their event handlers.

    Conventions of the embedding.
    - A JavaScript string is a [string]: a sequence of code units, here
      restricted to the range 0..255 (Latin-1).  All markers the code
      searches for are ASCII.
    - A JavaScript [number] that is only stored and printed is a [Z].
    - A React state variable is a field of the record [State]; a setter
      overwrites the field in the live state, while the handler that calls
      it keeps reading the values of the render it was created in (its
      closure).  Every handler therefore takes the render [r : State] it
      closes over as an argument and acts on the live [World].
    - [toast], [console.error], [fetch] and the timer functions append to
      the effect trace of the [World].
    - An [async] handler is cut at its [await]s: the part that runs when
      the handler is called, and the part that runs when the awaited
      promise settles. *)

From Stdlib Require Import ZArith Ascii String.
From stdpp Require Import base option list strings pretty.

Local Open Scope string_scope.
Local Open Scope list_scope.

(** ** JavaScript strings *)

Module JsString.

(** The double quote character, for literals that contain it. *)
Definition dq : string := String "034"%char "".
(** Line feed. *)
Definition nl : string := String "010"%char "".

(** White space and line terminators of ECMAScript within Latin-1:
    TAB, LF, VT, FF, CR, SPACE and NBSP. *)
Definition isWhiteSpace (c : ascii) : bool :=
  bool_decide (N_of_ascii c ∈ [9; 10; 11; 12; 13; 32; 160]%N).

Fixpoint trimStart (s : string) : string :=
  match s with
  | "" => ""
  | String c s' => if isWhiteSpace c then trimStart s' else s
  end.

Fixpoint trimEnd (s : string) : string :=
  match s with
  | "" => ""
  | String c s' =>
      match trimEnd s' with
      | "" => if isWhiteSpace c then "" else String c ""
      | t => String c t
      end
  end.

(** [s.trim()] *)
Definition trim (s : string) : string := trimEnd (trimStart s).

(** [s] is empty or consists of white space only. *)
Fixpoint blank (s : string) : bool :=
  match s with
  | "" => true
  | String c s' => isWhiteSpace c && blank s'
  end.

(** Lower-case mapping of one Latin-1 code unit: A..Z and the accented
    capitals 192..222 (without the multiplication sign 215) move up
    by 32. *)
Definition lowerChar (c : ascii) : ascii :=
  let n := N_of_ascii c in
  if bool_decide (65 ≤ n ≤ 90)%N || (bool_decide (192 ≤ n ≤ 222)%N && negb (n =? 215)%N)
  then ascii_of_N (n + 32) else c.

(** Upper-case mapping of an ASCII letter (the code only capitalises the
    language names it produced itself). *)
Definition upperChar (c : ascii) : ascii :=
  let n := N_of_ascii c in
  if bool_decide (97 ≤ n ≤ 122)%N then ascii_of_N (n - 32) else c.

Fixpoint map (f : ascii → ascii) (s : string) : string :=
  match s with
  | "" => ""
  | String c s' => String (f c) (map f s')
  end.

(** [s.toLowerCase()] and [s.toUpperCase()] *)
Definition toLowerCase : string → string := map lowerChar.
Definition toUpperCase : string → string := map upperChar.

(** [s.includes(pat)]: [pat] occurs in [s] as a contiguous substring. *)
Fixpoint includes (s pat : string) : bool :=
  String.prefix pat s ||
  match s with
  | "" => false
  | String _ s' => includes s' pat
  end.

(** [s.charAt(0)] and [s.slice(1)] *)
Definition charAt0 (s : string) : string :=
  match s with "" => "" | String c _ => String c "" end.
Definition slice1 (s : string) : string :=
  match s with "" => "" | String _ s' => s' end.

(** Truthiness of a string: non-empty. *)
Definition truthy (s : string) : bool :=
  match s with "" => false | _ => true end.

(** [l.join(sep)] *)
Fixpoint join (sep : string) (l : list string) : string :=
  match l with
  | [] => ""
  | [x] => x
  | x :: l' => x +:+ sep +:+ join sep l'
  end.

End JsString.

Import JsString.

(** ** Shared data types *)

Inductive Severity := Critical | Major | Minor.

Definition severityName (s : Severity) : string :=
  match s with Critical => "Critical" | Major => "Major" | Minor => "Minor" end.

Record Issue := mkIssue {
  line : Z;
  type : string;
  severity : Severity;
  message : string;
  suggestion : string;
}.

(** ** IssuesPanel *)

Module IssuesPanel.

(** The state of the component: the selected filter level. *)
Inductive Filter := All | Only (s : Severity).

Definition filterName (f : Filter) : string :=
  match f with All => "All" | Only s => severityName s end.

(** The four filter buttons, in the order they are rendered. *)
Definition levels : list Filter := [All; Only Critical; Only Major; Only Minor].

(** [i => filter === "All" ? true : i.severity === filter] *)
Definition keep (filter : Filter) (i : Issue) : bool :=
  if String.eqb (filterName filter) "All" then true
  else String.eqb (severityName (severity i)) (filterName filter).

(** [const visible = issues.filter(...)] *)
Definition visible (issues : list Issue) (filter : Filter) : list Issue :=
  List.filter (keep filter) issues.

(** The text of the panel header. *)
Definition header (issues : list Issue) (filter : Filter) : string :=
  "Issues Found (" +:+ pretty (length (visible issues filter)) +:+ "/"
    +:+ pretty (length issues) +:+ ")".

(** The icons of lucide-react the panel uses. *)
Inductive Icon := AlertCircle | AlertTriangle | Info.

(** The three [switch] statements on the severity of an issue; they take
    any string and treat all but "Critical" and "Major" alike. *)
Definition getSeverityIcon (severity : string) : Icon :=
  if String.eqb severity "Critical" then AlertCircle
  else if String.eqb severity "Major" then AlertTriangle
  else Info.

Definition getSeverityVariant (severity : string) : string :=
  if String.eqb severity "Critical" then "destructive"
  else if String.eqb severity "Major" then "default"
  else "secondary".

Definition getSeverityColor (severity : string) : string :=
  if String.eqb severity "Critical" then "text-destructive"
  else if String.eqb severity "Major" then "text-warning"
  else "text-muted-foreground".

End IssuesPanel.

(** ** MetricsPanel *)

Module MetricsPanel.

(** [getScoreColor], on a score that is a whole number. *)
Definition getScoreColor (score : Z) : string :=
  if (80 <=? score)%Z then "text-success"
  else if (60 <=? score)%Z then "text-warning"
  else "text-destructive".

(** How good a colour of [getScoreColor] is. *)
Definition rank (color : string) : nat :=
  if String.eqb color "text-success" then 2
  else if String.eqb color "text-warning" then 1
  else 0.

End MetricsPanel.

(** ** Messages exchanged with the backend *)

Record Metrics := mkMetrics {
  cyclomaticComplexity : Z;
  readabilityScore : Z;
  styleAdherence : Z;
}.

(** The JSON body of every POST: [{ code, language }]. *)
Module RequestBody.
Record t := mk { code : string; language : string }.
End RequestBody.

Module AnalyzeResponse.
Record t := mk {
  codeQualityScore : Z;
  issues : list Issue;
  metrics : Metrics;
  language : string;
  analyzedAt : string;
  code : string;
}.
End AnalyzeResponse.

(** [type HistoryItem = AnalyzeResponse & { id: string }] *)
Module HistoryItem.
Record t := mk { id : string; response : AnalyzeResponse.t }.
End HistoryItem.

(** The body of a successful reply of [/api/fix]. *)
Module FixResponse.
Record t := mk {
  fixedCode : string;
  changes : list string;
  source : string;
  language : string;
}.
End FixResponse.

(** The body of a successful reply of [/api/report] ([content]) or
    [/api/report/html] ([html]). *)
Module ReportResponse.
Record t := mk { filename : string; content : string }.
End ReportResponse.

(** A value caught by a [catch] clause. *)
Inductive JsError :=
| TypeError                    (* [fetch] rejected: no response at all *)
| SyntaxError                  (* [res.json()] rejected *)
| Error (message : string).    (* [new Error(message)] thrown by the handler *)

(** The ways an awaited [fetch] followed by [res.json()] goes wrong. *)
Inductive Failure :=
| NetworkError                 (* the promise of [fetch] rejects *)
| NotOk (status : Z)           (* [res.ok] is false *)
| BadBody.                     (* [res.ok], but [res.json()] rejects *)

(** How it turns out: a failure, or [res.ok] and a body of the declared
    type.  ([res.json()] is cast to that type, not checked against it;
    the module [Untyped] below follows a body that lacks a field.) *)
Inductive Reply (A : Type) :=
| Failed (failure : Failure)
| OkJson (data : A).
Arguments Failed {A} failure.
Arguments OkJson {A} data.

(** ** The Index page *)

Module Index.

Definition defaultCode : string :=
  join nl [
    "// Paste your code here and it will auto-detect the language!";
    "// Examples:";
    "// JavaScript: function hello() { console.log(" +:+ dq +:+ "world" +:+ dq +:+ "); }";
    "// Python: def hello(): print(" +:+ dq +:+ "world" +:+ dq +:+ ")";
    "// Java: public class Hello { public static void main(String[] args) { System.out.println("
      +:+ dq +:+ "world" +:+ dq +:+ "); } }";
    "// C++: #include <iostream> using namespace std; int main() { cout << "
      +:+ dq +:+ "world" +:+ dq +:+ "; return 0; }";
    "// C: #include <stdio.h> int main() { printf(" +:+ dq +:+ "world" +:+ dq +:+ "); return 0; }";
    "// TypeScript: interface User { name: string; }"
  ].

(** What [analysisResult] holds: the body of a reply ([setAnalysisResult(data)])
    or a history entry ([setAnalysisResult(h)], an [AnalyzeResponse] that
    also carries its [id]). *)
Inductive Analysis :=
| Fresh (data : AnalyzeResponse.t)
| Loaded (h : HistoryItem.t).

Definition asResponse (a : Analysis) : AnalyzeResponse.t :=
  match a with Fresh d => d | Loaded h => HistoryItem.response h end.

(** The [useState] variables of the component. *)
Record State := mkState {
  code : string;
  language : string;
  isAnalyzing : bool;
  isFixing : bool;
  analysisResult : option Analysis;
  scrollToLine : option Z;
  history : list HistoryItem.t;
}.

(** The first render: the initial values given to [useState]. *)
Definition initialState : State :=
  mkState defaultCode "auto" false false None None [].

(** What the handlers do to the outside. *)
Inductive Effect :=
| toast_info (m : string)
| toast_error (m : string)
| toast_success (m : string)
| console_error (e : JsError)
| fetch (url : string) (body : RequestBody.t)
| clearTimeout (handle : nat)
| setTimeout (handle : nat) (ms : Z)
| download (filename content mime : string).

(** The live component: its state, the [useRef] cell, the trace of effects
    so far (oldest first) and how many UUIDs and timer handles were drawn. *)
Record World := mkWorld {
  state : State;
  fixTimeoutRef : option nat;
  trace : list Effect;
  uuidCalls : nat;
  timerCalls : nat;
}.

Definition initialWorld : World := mkWorld initialState None [] 0 0.

(** *** The monad of handler code *)

Definition M (A : Type) : Type := World → A * World.

#[export] Instance M_ret : MRet M := λ A a w, (a, w).
#[export] Instance M_bind : MBind M := λ A B f m w, let (a, w') := m w in f a w'.

Definition exec {A} (m : M A) (w : World) : World := snd (m w).
Definition eval {A} (m : M A) (w : World) : A := fst (m w).

Definition modify (f : State → State) : M unit :=
  λ w, ((), mkWorld (f (state w)) (fixTimeoutRef w) (trace w) (uuidCalls w) (timerCalls w)).

Definition emit (e : Effect) : M unit :=
  λ w, ((), mkWorld (state w) (fixTimeoutRef w) (trace w ++ [e]) (uuidCalls w) (timerCalls w)).

(** [preserves f m]: running [m] leaves the observation [f] of the live
    component as it was. *)
Definition preserves {A B} (f : World → B) (m : M A) : Prop :=
  ∀ w, f (exec m w) = f w.

(** The state setters. *)
Definition setCode (v : string) : M unit :=
  modify (λ s, mkState v (language s) (isAnalyzing s) (isFixing s)
                 (analysisResult s) (scrollToLine s) (history s)).
Definition setLanguage (v : string) : M unit :=
  modify (λ s, mkState (code s) v (isAnalyzing s) (isFixing s)
                 (analysisResult s) (scrollToLine s) (history s)).
Definition setIsAnalyzing (v : bool) : M unit :=
  modify (λ s, mkState (code s) (language s) v (isFixing s)
                 (analysisResult s) (scrollToLine s) (history s)).
Definition setIsFixing (v : bool) : M unit :=
  modify (λ s, mkState (code s) (language s) (isAnalyzing s) v
                 (analysisResult s) (scrollToLine s) (history s)).
Definition setAnalysisResult (v : option Analysis) : M unit :=
  modify (λ s, mkState (code s) (language s) (isAnalyzing s) (isFixing s)
                 v (scrollToLine s) (history s)).
Definition setScrollToLine (v : option Z) : M unit :=
  modify (λ s, mkState (code s) (language s) (isAnalyzing s) (isFixing s)
                 (analysisResult s) v (history s)).
(** [setHistory] is always called with an updater function. *)
Definition setHistory (f : list HistoryItem.t → list HistoryItem.t) : M unit :=
  modify (λ s, mkState (code s) (language s) (isAnalyzing s) (isFixing s)
                 (analysisResult s) (scrollToLine s) (f (history s))).

(** [fixTimeoutRef.current] read and written. *)
Definition readFixTimeoutRef : M (option nat) := λ w, (fixTimeoutRef w, w).
Definition writeFixTimeoutRef (v : option nat) : M unit :=
  λ w, ((), mkWorld (state w) v (trace w) (uuidCalls w) (timerCalls w)).

(** [setTimeout(f, ms)] returns a handle that was not handed out before. *)
Definition callSetTimeout (ms : Z) : M nat :=
  λ w, let h := S (timerCalls w) in
       (h, mkWorld (state w) (fixTimeoutRef w) (trace w ++ [setTimeout h ms])
             (uuidCalls w) (S (timerCalls w))).

(** *** Language detection *)

(** The value of [detectedLanguage] after the chain of tests in
    [handleCodeChange]; [code] is the trimmed, lower-cased text. *)
Definition detectedLanguage (code : string) : string :=
  if includes code "def " || includes code "import " || includes code "print(" then
    "python"
  else if includes code "public class" || includes code "system.out.println"
          || includes code "import java." then
    "java"
  else if includes code "using namespace" || includes code "std::"
          || (includes code "#include" && includes code "iostream") then
    "cpp"
  else if includes code "#include"
          && (includes code "stdio.h" || includes code "stdlib.h" || includes code "string.h") then
    "c"
  else if includes code "interface " || includes code "type " || includes code ": string"
          || includes code "array<" then
    "typescript"
  else if includes code "function " || includes code "=>" || includes code "console.log"
          || includes code "const " then
    "javascript"
  else
    "".

(** [handleCodeChange], the [onChange] handler of the editor. *)
Definition handleCodeChange (r : State) (newCode : string) : M unit :=
  setCode newCode;;
  if String.eqb (language r) "auto" && truthy (trim newCode) then
    let code := toLowerCase (trim newCode) in
    let detected := detectedLanguage code in
    if truthy detected && negb (String.eqb detected (language r)) then
      setLanguage detected;;
      emit (toast_info ("Auto-detected: " +:+ toUpperCase (charAt0 detected) +:+ slice1 detected))
    else mret ()
  else mret ().

(** *** Analysis *)

(** [source || ""] on a string. *)
Definition orEmpty (s : string) : string := if truthy s then s else "".

(** The number of issues of a given [type]. *)
Definition countType (t : string) (l : list Issue) : nat :=
  length (List.filter (λ issue, String.eqb (type issue) t) l).

(** The closing message of a successful analysis (the characters after
    "No errors! " are the bytes of the source file). *)
Definition completeMessage (data : AnalyzeResponse.t) : string :=
  let errorCount := countType "Error" (AnalyzeResponse.issues data) in
  let warningCount := countType "Warning" (AnalyzeResponse.issues data) in
  let suggestionCount := countType "Suggestion" (AnalyzeResponse.issues data) in
  let head := "Analysis complete! Score: " +:+ pretty (AnalyzeResponse.codeQualityScore data)
                +:+ "/100 (" +:+ AnalyzeResponse.language data +:+ ") - " in
  if Nat.eqb errorCount 0 then
    head +:+ "No errors! ðŸŽ‰"
  else
    head +:+ pretty errorCount +:+ " errors, " +:+ pretty warningCount +:+ " warnings, "
      +:+ pretty suggestionCount +:+ " suggestions".

(** What the [catch] clause of a handler receives for a failure; [what]
    is the word the handler puts in its own error message. *)
Definition thrown (what : string) (failure : Failure) : JsError :=
  match failure with
  | NetworkError => TypeError
  | NotOk status => Error (what +:+ " failed: " +:+ pretty status)
  | BadBody => SyntaxError
  end.

Section Handlers.

(** [crypto.randomUUID()]: the value returned by the n-th call. *)
Variable randomUUID : nat → string.

Definition callRandomUUID : M string :=
  λ w, (randomUUID (uuidCalls w),
        mkWorld (state w) (fixTimeoutRef w) (trace w) (S (uuidCalls w)) (timerCalls w)).

(** [handleAnalyze(overrideCode)] from the call to its [await fetch]: the
    result is the request it is now waiting on, or [None] when it returned
    at once. *)
Definition handleAnalyze (r : State) (overrideCode : option string)
  : M (option RequestBody.t) :=
  let source := default (code r) overrideCode in
  let trimmed := trim (orEmpty source) in
  if negb (truthy trimmed) then
    emit (toast_error "Please paste or type some code before analyzing.");;
    mret None
  else
    let body := RequestBody.mk trimmed (language r) in
    setIsAnalyzing true;;
    setScrollToLine None;;
    emit (toast_info "Analyzing your code...");;
    emit (fetch "/api/analyze" body);;
    mret (Some body).

(** The rest of [handleAnalyze], run when the request settles. *)
Definition handleAnalyze_settled (r : State) (reply : Reply AnalyzeResponse.t) : M unit :=
  match reply with
  | OkJson data =>
      setAnalysisResult (Some (Fresh data));;
      (if String.eqb (language r) "auto"
          && negb (String.eqb (AnalyzeResponse.language data) "auto") then
         setLanguage (AnalyzeResponse.language data);;
         emit (toast_success ("Auto-detected language: " +:+ AnalyzeResponse.language data))
       else mret ());;
      id ← callRandomUUID;
      setHistory (λ prev, take 10 (HistoryItem.mk id data :: prev));;
      emit (toast_success (completeMessage data))
  | Failed failure =>
      emit (console_error (thrown "Analyze" failure));;
      emit (toast_error "Failed to analyze code")
  end;;
  setIsAnalyzing false.

(** The [Load] button of a history entry. *)
Definition loadHistory (h : HistoryItem.t) : M unit :=
  setAnalysisResult (Some (Loaded h)).

(** *** Fixes *)

(** The [finally] clause of [handleFix]. *)
Definition handleFix_finally : M unit :=
  setIsFixing false;;
  h ← callSetTimeout 1000;
  writeFixTimeoutRef (Some h).

(** [handleFix()] from the call to its [await fetch]. *)
Definition handleFix (r : State) : M (option RequestBody.t) :=
  if isFixing r then
    emit (toast_info "Fix already in progress...");;
    mret None
  else
    let trimmed := trim (orEmpty (code r)) in
    if negb (truthy trimmed) then
      emit (toast_error "Add some code first.");;
      mret None
    else
      let body := RequestBody.mk trimmed (language r) in
      t ← readFixTimeoutRef;
      (match t with Some h => emit (clearTimeout h) | None => mret () end);;
      setIsFixing true;;
      emit (toast_info "Applying AI fixes...");;
      emit (fetch "/api/fix" body);;
      mret (Some body).

(** [changes.length && !(changes.length === 1 && changes[0] === "No changes")] *)
Definition hasChanges (changes : list string) : bool :=
  negb (Nat.eqb (length changes) 0)
  && negb (Nat.eqb (length changes) 1
           && bool_decide (changes !! 0%nat = Some "No changes")).

(** The toast [handleFix] shows for a good reply. *)
Definition fixMessage (fx : FixResponse.t) : Effect :=
  if hasChanges (FixResponse.changes fx) then
    toast_success ("Fixed with " +:+ FixResponse.source fx +:+ ": "
                     +:+ join ", " (FixResponse.changes fx))
  else toast_info "No fixes needed.".

(** [handleFix] from the reply of [/api/fix] on: up to the [await] of the
    analysis it starts (the result is that analysis request), or to its end
    when no analysis request goes out. *)
Definition handleFix_settled (r : State) (reply : Reply FixResponse.t)
  : M (option RequestBody.t) :=
  match reply with
  | OkJson fx =>
      setCode (FixResponse.fixedCode fx);;
      emit (fixMessage fx);;
      req ← handleAnalyze r (Some (FixResponse.fixedCode fx));
      match req with
      | Some body => mret (Some body)
      | None => handleFix_finally;; mret None
      end
  | Failed failure =>
      emit (console_error (thrown "Fix" failure));;
      emit (toast_error "Failed to apply fixes");;
      handleFix_finally;;
      mret None
  end.

(** [handleFix] after the analysis it awaited has finished. *)
Definition handleFix_analyzed (r : State) (reply : Reply AnalyzeResponse.t) : M unit :=
  handleAnalyze_settled r reply;;
  handleFix_finally.

(** *** Reset and downloads *)

Definition handleReset : M unit :=
  setCode defaultCode;;
  setAnalysisResult None;;
  setScrollToLine None;;
  emit (toast_info "Code reset to default").

(** [handleDownloadReport] ([html = false]) and [handleDownloadHtml]. *)
Definition handleDownload (html : bool) (r : State) : M unit :=
  emit (fetch (if html then "/api/report/html" else "/api/report")
          (RequestBody.mk (code r) (language r))).

Definition handleDownload_settled (html : bool) (reply : Reply ReportResponse.t) : M unit :=
  match reply with
  | OkJson rep =>
      emit (download (ReportResponse.filename rep) (ReportResponse.content rep)
              (if html then "text/html;charset=utf-8" else "text/plain;charset=utf-8"));;
      emit (toast_success (if html then "HTML report downloaded!"
                           else "Report downloaded successfully!"))
  | Failed failure =>
      emit (console_error (thrown "Report" failure));;
      emit (toast_error (if html then "Failed to download HTML report"
                         else "Failed to download report"))
  end.

(** *** The page as a transition system *)

(** A handler that is waiting at an [await], with the render it closes
    over.  [AwaitAnalyze r true] is a [handleAnalyze] that [handleFix]
    itself awaits. *)
Inductive Suspended :=
| AwaitAnalyze (r : State) (insideFix : bool)
| AwaitFix (r : State)
| AwaitReport (html : bool).

Record Page := mkPage {
  world : World;
  pending : list Suspended;
}.

Definition initialPage : Page := mkPage initialWorld [].

(** What can happen to the page: the user acts on a control, or the
    request of the n-th waiting handler settles. *)
Inductive Event :=
| EditorChange (newCode : string)
| SelectLanguage (v : string)
| ClickReset
| ClickAnalyze
| ClickFix
| ClickDownload (html : bool)
| ClickIssue (line : Z)
| ClickLoad (n : nat)
| AnalyzeReply (n : nat) (reply : Reply AnalyzeResponse.t)
| FixReply (n : nat) (reply : Reply FixResponse.t)
| ReportReply (n : nat) (reply : Reply ReportResponse.t).

(** A handler started by the user closes over the latest render, which
    shows the live state; a resumed handler closes over the render it was
    started in.  The [disabled] attributes of the buttons are not taken
    into account: every control can be used in every state. *)
Definition step (ev : Event) (p : Page) : option Page :=
  let r := state (world p) in
  match ev with
  | EditorChange newCode =>
      Some (mkPage (exec (handleCodeChange r newCode) (world p)) (pending p))
  | SelectLanguage v =>
      Some (mkPage (exec (setLanguage v) (world p)) (pending p))
  | ClickReset =>
      Some (mkPage (exec handleReset (world p)) (pending p))
  | ClickAnalyze =>
      let (req, w) := handleAnalyze r None (world p) in
      Some (mkPage w (pending p ++ if req is Some _ then [AwaitAnalyze r false] else []))
  | ClickFix =>
      let (req, w) := handleFix r (world p) in
      Some (mkPage w (pending p ++ if req is Some _ then [AwaitFix r] else []))
  | ClickDownload html =>
      Some (mkPage (exec (handleDownload html r) (world p)) (pending p ++ [AwaitReport html]))
  | ClickIssue line =>
      Some (mkPage (exec (setScrollToLine (Some line)) (world p)) (pending p))
  | ClickLoad n =>
      h ← history r !! n;
      Some (mkPage (exec (loadHistory h) (world p)) (pending p))
  | AnalyzeReply n reply =>
      match pending p !! n with
      | Some (AwaitAnalyze r0 insideFix) =>
          let m := if insideFix then handleFix_analyzed r0 reply
                   else handleAnalyze_settled r0 reply in
          Some (mkPage (exec m (world p)) (delete n (pending p)))
      | _ => None
      end
  | FixReply n reply =>
      match pending p !! n with
      | Some (AwaitFix r0) =>
          let (req, w) := handleFix_settled r0 reply (world p) in
          Some (mkPage w (delete n (pending p) ++ if req is Some _ then [AwaitAnalyze r0 true] else []))
      | _ => None
      end
  | ReportReply n reply =>
      match pending p !! n with
      | Some (AwaitReport html) =>
          Some (mkPage (exec (handleDownload_settled html reply) (world p))
                  (delete n (pending p)))
      | _ => None
      end
  end.

Inductive reachable : Page → Prop :=
| reachable_init : reachable initialPage
| reachable_step p ev p' : reachable p → step ev p = Some p' → reachable p'.

(** The page after a sequence of events, when each of them can happen. *)
Fixpoint run (evs : list Event) (p : Page) : option Page :=
  match evs with
  | [] => Some p
  | ev :: evs' => p' ← step ev p; run evs' p'
  end.

End Handlers.

(** *** Notions the properties are stated with *)

(** The requests sent to [url] according to a trace. *)
Definition requestsTo (url : string) (t : list Effect) : list RequestBody.t :=
  omap (λ e, match e with
             | fetch u body => if String.eqb u url then Some body else None
             | _ => None
             end) t.

(** A [handleFix] that went past its guard and has not reached the end of
    its [finally] clause: it waits for [/api/fix] or for the analysis it
    started. *)
Definition inFix (s : Suspended) : bool :=
  match s with
  | AwaitFix _ => true
  | AwaitAnalyze _ insideFix => insideFix
  | AwaitReport _ => false
  end.

Definition fixesInFlight (p : Page) : nat := length (List.filter inFix (pending p)).

(** At most one [handleFix] is under way, and then [isFixing] is set. *)
Definition oneFix (p : Page) : Prop :=
  (fixesInFlight p ≤ 1)%nat
  ∧ (isFixing (state (world p)) = false → fixesInFlight p = 0%nat).

(** The requests to [/api/fix] that have not settled. *)
Definition awaitsFix (s : Suspended) : bool :=
  match s with AwaitFix _ => true | _ => false end.

Definition fixRequestsOutstanding (p : Page) : nat :=
  length (List.filter awaitsFix (pending p)).

Definition historyIds (w : World) : list string :=
  HistoryItem.id <$> history (state w).

(** The ids in the history are pairwise different results of earlier calls
    of [randomUUID], and there are at most ten entries. *)
Definition historyWf (randomUUID : nat → string) (w : World) : Prop :=
  NoDup (historyIds w)
  ∧ Forall (λ i, ∃ k, (k < uuidCalls w)%nat ∧ i = randomUUID k) (historyIds w)
  ∧ (length (history (state w)) ≤ 10)%nat.

(** *** The priority order of the detection, as the specification words it *)

Inductive Lang := Python | Java | Cpp | CLang | TypeScript | JavaScript.

Definition spec_priority : list Lang := [Python; Java; Cpp; CLang; TypeScript; JavaScript].

Definition spec_name (l : Lang) : string :=
  match l with
  | Python => "python" | Java => "java" | Cpp => "cpp"
  | CLang => "c" | TypeScript => "typescript" | JavaScript => "javascript"
  end.

(** [code] shows a marker of language [l]. *)
Definition spec_marked (code : string) (l : Lang) : bool :=
  match l with
  | Python => includes code "def " || includes code "import " || includes code "print("
  | Java => includes code "public class" || includes code "system.out.println"
            || includes code "import java."
  | Cpp => includes code "using namespace" || includes code "std::"
           || (includes code "#include" && includes code "iostream")
  | CLang => includes code "#include"
             && (includes code "stdio.h" || includes code "stdlib.h" || includes code "string.h")
  | TypeScript => includes code "interface " || includes code "type "
                  || includes code ": string" || includes code "array<"
  | JavaScript => includes code "function " || includes code "=>"
                  || includes code "console.log" || includes code "const "
  end.

(** The first language of the priority order that [code] shows a marker of. *)
Definition spec_detect (code : string) : option Lang :=
  List.find (spec_marked code) spec_priority.

(** *** What the page renders *)

(** The right column: the spinner while [isAnalyzing], else the results
    when there are some, else the invitation to analyze. *)
Inductive RightColumn :=
| Analyzing
| Results (a : Analysis)
| ReadyToAnalyze.

Definition rightColumn (s : State) : RightColumn :=
  if isAnalyzing s then Analyzing
  else match analysisResult s with
       | Some a => Results a
       | None => ReadyToAnalyze
       end.

(** The history entries that are rendered with a [Load] button: the
    history block is part of the results. *)
Definition loadButtons (s : State) : list HistoryItem.t :=
  match rightColumn s with
  | Results _ => history s
  | _ => []
  end.

(** The issues handed to [IssuesPanel], which is part of the results. *)
Definition issuesShown (s : State) : list Issue :=
  match rightColumn s with
  | Results a => AnalyzeResponse.issues (asResponse a)
  | _ => []
  end.

(** The two download buttons are rendered when [analysisResult] is set. *)
Definition downloadsShown (s : State) : bool :=
  if analysisResult s is Some _ then true else false.

(** The [disabled] attributes of the two action buttons. *)
Definition analyzeDisabled (s : State) : bool := isAnalyzing s.
Definition fixDisabled (s : State) : bool := isFixing s || isAnalyzing s.

(** The [language] the editor is given; [CodeEditor] lower-cases it. *)
Definition editorLanguage (s : State) : string :=
  toLowerCase
    (if String.eqb (language s) "auto" then
       match analysisResult s with
       | Some a => AnalyzeResponse.language (asResponse a)
       | None => "javascript"
       end
     else language s).

(** The values of the language selector. *)
Definition languageOptions : list string :=
  ["auto"; "javascript"; "python"; "java"; "cpp"; "c"; "typescript"].

(** An event the rendered page lets happen: a control must be rendered
    and not disabled; replies come when they come. *)
Definition enabled (ev : Event) (p : Page) : bool :=
  let s := state (world p) in
  match ev with
  | EditorChange _ => true
  | SelectLanguage v => bool_decide (v ∈ languageOptions)
  | ClickReset => true
  | ClickAnalyze => negb (analyzeDisabled s)
  | ClickFix => negb (fixDisabled s)
  | ClickDownload _ => downloadsShown s
  | ClickIssue l => bool_decide (l ∈ line <$> issuesShown s)
  | ClickLoad n => bool_decide (n < length (loadButtons s))%nat
  | AnalyzeReply _ _ | FixReply _ _ | ReportReply _ _ => true
  end.

(** The pages a user can bring about through the rendered controls. *)
Inductive reachableUI (randomUUID : nat → string) : Page → Prop :=
| reachableUI_init : reachableUI randomUUID initialPage
| reachableUI_step p ev p' :
    reachableUI randomUUID p → enabled ev p = true →
    step randomUUID ev p = Some p' → reachableUI randomUUID p'.

(** The page after a sequence of events the rendered page lets happen. *)
Fixpoint runUI (randomUUID : nat → string) (evs : list Event) (p : Page) : option Page :=
  match evs with
  | [] => Some p
  | ev :: evs' =>
      if enabled ev p then p' ← step randomUUID ev p; runUI randomUUID evs' p'
      else None
  end.

(** *** Further notions the properties are stated with *)

(** [emits Q m]: running [m] only adds effects to the trace, and each of
    them satisfies [Q]. *)
Definition emits {A} (Q : Effect → Prop) (m : M A) : Prop :=
  ∀ w, ∃ new, trace (exec m w) = trace w ++ new ∧ Forall Q new.

(** The four endpoints of the backend the page talks to. *)
Definition endpoints : list string :=
  ["/api/analyze"; "/api/fix"; "/api/report"; "/api/report/html"].

(** A request the page may send: to one of the endpoints, and, for an
    analysis or a fix, with code that is trimmed and not empty. *)
Definition wellFormedRequest (e : Effect) : Prop :=
  match e with
  | fetch url body =>
      url ∈ endpoints
      ∧ (url = "/api/analyze" ∨ url = "/api/fix" →
         RequestBody.code body ≠ "" ∧ trim (RequestBody.code body) = RequestBody.code body)
  | _ => True
  end.

Definition awaitsAnalyze (s : Suspended) : bool :=
  match s with AwaitAnalyze _ _ => true | _ => false end.

(** The requests to [/api/analyze] that have not settled. *)
Definition analysesOutstanding (p : Page) : nat :=
  length (List.filter awaitsAnalyze (pending p)).

(** While an analysis is announced one is outstanding, and while a fix is
    announced one is under way. *)
Definition flagsWf (p : Page) : Prop :=
  (isAnalyzing (state (world p)) = true → (1 ≤ analysesOutstanding p)%nat)
  ∧ (isFixing (state (world p)) = true → (1 ≤ fixesInFlight p)%nat).

(** [handleFix_settled] without its [finally] clause. *)
Definition handleFix_settled_body (r : State) (reply : Reply FixResponse.t)
  : M (option RequestBody.t) :=
  match reply with
  | OkJson fx =>
      setCode (FixResponse.fixedCode fx);;
      emit (fixMessage fx);;
      handleAnalyze r (Some (FixResponse.fixedCode fx))
  | Failed failure =>
      emit (console_error (thrown "Fix" failure));;
      emit (toast_error "Failed to apply fixes");;
      mret None
  end.

(** An effect a handler may add: a well-formed request or anything else,
    but a [clearTimeout] only of the handle [ref] holds and the toast of
    the guard of [handleFix] only when [fixing]. *)
Definition allowedEffect (ref : option nat) (fixing : bool) (e : Effect) : Prop :=
  wellFormedRequest e
  ∧ (∀ h, e = clearTimeout h → ref = Some h)
  ∧ (e = toast_info "Fix already in progress..." → fixing = true).

(** [advances ref fixing w w']: from [w] to [w'] the trace grew by allowed
    effects, and [fixTimeoutRef] is as it was or holds the handle of a
    timer that was set on the way. *)
Definition advances (ref : option nat) (fixing : bool) (w w' : World) : Prop :=
  ∃ new, trace w' = trace w ++ new
         ∧ Forall (allowedEffect ref fixing) new
         ∧ (fixTimeoutRef w' = fixTimeoutRef w
            ∨ ∃ h, fixTimeoutRef w' = Some h ∧ setTimeout h 1000 ∈ new).

(** The timer handles in use are handles [setTimeout] returned: the one
    kept in [fixTimeoutRef], and every one given to [clearTimeout]. *)
Definition timersWf (w : World) : Prop :=
  (∀ h, fixTimeoutRef w = Some h → setTimeout h 1000 ∈ trace w)
  ∧ (∀ h, clearTimeout h ∈ trace w → setTimeout h 1000 ∈ trace w).

End Index.

(** *** Selection of a sublist, as the specification of a filter words it *)

(** [Selection P l v]: [v] consists of exactly the elements of [l] that
    satisfy [P], in the order (and with the multiplicity) they have in
    [l]. *)
Inductive Selection {A : Type} (P : A → Prop) : list A → list A → Prop :=
| Selection_nil : Selection P [] []
| Selection_keep x l v : P x → Selection P l v → Selection P (x :: l) (x :: v)
| Selection_skip x l v : ¬ P x → Selection P l v → Selection P (x :: l) v.

(** ** The reply of an analysis as it is parsed *)

(** [const data: AnalyzeResponse = await res.json()] is a cast: whatever
    the body parses to goes through [handleAnalyze].  This module follows
    the rest of [handleAnalyze] for a parsed object whose [issues] may be
    missing, in which case [data.issues.filter] throws a [TypeError] into
    the [catch] clause of the handler.  (The other fields are only stored
    and printed, which throws for no value; they are kept as declared.) *)
Module Untyped.

Record Body := mkBody {
  codeQualityScore : Z;
  issues : option (list Issue);
  metrics : Metrics;
  language : string;
  analyzedAt : string;
  code : string;
}.

(** [{ id: crypto.randomUUID(), ...data }] *)
Record Item := mkItem { id : string; body : Body }.

Inductive Analysis :=
| Fresh (data : Body)
| Loaded (h : Item).

(** The state and the live component, as in [Index] but for the objects
    that [analysisResult] and [history] hold. *)
Record State := mkState {
  editorCode : string;
  selected : string;
  isAnalyzing : bool;
  isFixing : bool;
  analysisResult : option Analysis;
  scrollToLine : option Z;
  history : list Item;
}.

Record World := mkWorld {
  state : State;
  fixTimeoutRef : option nat;
  trace : list Index.Effect;
  uuidCalls : nat;
  timerCalls : nat;
}.

(** A body of the declared type, and the typed component, seen here. *)
Definition ofResponse (d : AnalyzeResponse.t) : Body :=
  mkBody (AnalyzeResponse.codeQualityScore d) (Some (AnalyzeResponse.issues d))
    (AnalyzeResponse.metrics d) (AnalyzeResponse.language d)
    (AnalyzeResponse.analyzedAt d) (AnalyzeResponse.code d).

Definition ofItem (h : HistoryItem.t) : Item :=
  mkItem (HistoryItem.id h) (ofResponse (HistoryItem.response h)).

Definition ofAnalysis (a : Index.Analysis) : Analysis :=
  match a with
  | Index.Fresh d => Fresh (ofResponse d)
  | Index.Loaded h => Loaded (ofItem h)
  end.

Definition ofState (s : Index.State) : State :=
  mkState (Index.code s) (Index.language s) (Index.isAnalyzing s) (Index.isFixing s)
    (ofAnalysis <$> Index.analysisResult s) (Index.scrollToLine s)
    (ofItem <$> Index.history s).

Definition ofWorld (w : Index.World) : World :=
  mkWorld (ofState (Index.state w)) (Index.fixTimeoutRef w) (Index.trace w)
    (Index.uuidCalls w) (Index.timerCalls w).

Definition ofReply (reply : Reply AnalyzeResponse.t) : Reply Body :=
  match reply with
  | Failed failure => Failed failure
  | OkJson d => OkJson (ofResponse d)
  end.

(** The body at the declared type, when it has its [issues]. *)
Definition checked (b : Body) : option AnalyzeResponse.t :=
  l ← issues b;
  Some (AnalyzeResponse.mk (codeQualityScore b) l (metrics b) (language b)
          (analyzedAt b) (code b)).

Definition modify (f : State → State) (w : World) : World :=
  mkWorld (f (state w)) (fixTimeoutRef w) (trace w) (uuidCalls w) (timerCalls w).

Definition emit (e : Index.Effect) (w : World) : World :=
  mkWorld (state w) (fixTimeoutRef w) (trace w ++ [e]) (uuidCalls w) (timerCalls w).

Definition setAnalysisResult (v : option Analysis) : World → World :=
  modify (λ s, mkState (editorCode s) (selected s) (isAnalyzing s) (isFixing s)
                 v (scrollToLine s) (history s)).
Definition setLanguage (v : string) : World → World :=
  modify (λ s, mkState (editorCode s) v (isAnalyzing s) (isFixing s)
                 (analysisResult s) (scrollToLine s) (history s)).
Definition setIsAnalyzing (v : bool) : World → World :=
  modify (λ s, mkState (editorCode s) (selected s) v (isFixing s)
                 (analysisResult s) (scrollToLine s) (history s)).
Definition setHistory (f : list Item → list Item) : World → World :=
  modify (λ s, mkState (editorCode s) (selected s) (isAnalyzing s) (isFixing s)
                 (analysisResult s) (scrollToLine s) (f (history s))).

(** [crypto.randomUUID()], drawn from [randomUUID] as in [Index]. *)
Definition drawUUID (w : World) : World :=
  mkWorld (state w) (fixTimeoutRef w) (trace w) (S (uuidCalls w)) (timerCalls w).

(** The rest of [handleAnalyze], run when the request settles, on the
    parsed body: the state is set, then the issues are counted, which
    throws when there are none to count; [r] is the render the handler
    closes over. *)
Definition handleAnalyze_settled (randomUUID : nat → string) (r : State)
    (reply : Reply Body) (w : World) : World :=
  let w_try :=
    match reply with
    | OkJson data =>
        let w1 := setAnalysisResult (Some (Fresh data)) w in
        let w2 :=
          if String.eqb (selected r) "auto" && negb (String.eqb (language data) "auto") then
            emit (Index.toast_success ("Auto-detected language: " +:+ language data))
              (setLanguage (language data) w1)
          else w1 in
        let id := randomUUID (uuidCalls w2) in
        let w3 := setHistory (λ prev, take 10 (mkItem id data :: prev)) (drawUUID w2) in
        match checked data with
        | Some d => emit (Index.toast_success (Index.completeMessage d)) w3
        | None =>
            emit (Index.toast_error "Failed to analyze code")
              (emit (Index.console_error TypeError) w3)
        end
    | Failed failure =>
        emit (Index.toast_error "Failed to analyze code")
          (emit (Index.console_error (Index.thrown "Analyze" failure)) w)
    end in
  setIsAnalyzing false w_try.

End Untyped.

(** ** Sample data *)

(** An analysis reply used in the examples. *)
Definition sampleReply : AnalyzeResponse.t :=
  AnalyzeResponse.mk 87 [mkIssue 3 "Warning" Minor "Unused variable" "Remove it"]
    (mkMetrics 2 90 80) "python" "2024-01-01T00:00:00" "x = 1".

(** The user pastes a snippet, asks for a fix three times in a row, the
    fix arrives, and the user asks once more while the analysis of the
    fixed code is still on its way. *)
Definition session : list Index.Event :=
  [ Index.EditorChange "print( 'hi' )";
    Index.ClickFix; Index.ClickFix; Index.ClickFix;
    Index.FixReply 0 (OkJson (FixResponse.mk "print('hi')" ["Formatted"] "local" "python"));
    Index.ClickFix ].

(** The user pastes a snippet and asks for a fix; the fix and then the
    analysis of the fixed code arrive; the user asks for another fix. *)
Definition sessionUI : list Index.Event :=
  [ Index.EditorChange "print( 'hi' )";
    Index.ClickFix;
    Index.FixReply 0 (OkJson (FixResponse.mk "print('hi')" ["Formatted"] "local" "python"));
    Index.AnalyzeReply 0 (OkJson sampleReply);
    Index.ClickFix ].

(** Ten analyses in a row, each answered before the next is asked for. *)
Definition tenAnalyses : list Index.Event :=
  mjoin (replicate 10 [Index.ClickAnalyze; Index.AnalyzeReply 0 (OkJson sampleReply)]).

(** * Properties *)

(** ** Strings *)

Section Strings.

Lemma append_cons (c : ascii) (a b : string) : String c a +:+ b = String c (a +:+ b).
Proof. reflexivity. Qed.

Lemma append_nil (b : string) : "" +:+ b = b.
Proof. reflexivity. Qed.

Lemma prefix_spec (pat s : string) :
  String.prefix pat s = true ↔ ∃ b, s = pat +:+ b.
Proof.
  revert s. induction pat as [|c pat IH]; intros [|d s]; simpl.
  - split; [intros _; by exists "" | done].
  - split; [intros _; by exists (String d s) | done].
  - split; [done | by intros [b ?]].
  - setoid_rewrite append_cons.
    destruct (Ascii.ascii_dec c d) as [->|Hne].
    + rewrite IH. split; intros [b Hb]; exists b; congruence.
    + split; [done | intros [b Hb]; congruence].
Qed.

(** [includes] is the search for a contiguous occurrence. *)
Lemma includes_spec (s pat : string) :
  includes s pat = true ↔ ∃ a b, s = a +:+ pat +:+ b.
Proof.
  induction s as [|c s IH]; cbn [includes].
  - rewrite orb_false_r, prefix_spec. split.
    + intros [b Hb]. by exists "", b.
    + intros [[|??] [b Hb]]; [by exists b | done].
  - rewrite orb_true_iff, prefix_spec, IH. split.
    + intros [[b Hb]|(a & b & Hab)].
      * by exists "", b.
      * exists (String c a), b. by rewrite append_cons, Hab.
    + intros ([|d a] & b & Hab).
      * left. by exists b.
      * right. exists a, b. rewrite append_cons in Hab. congruence.
Qed.

Lemma truthy_spec (s : string) : truthy s = true ↔ s ≠ "".
Proof. by destruct s. Qed.

Lemma trimStart_head (s : string) :
  match trimStart s with "" => True | String c _ => isWhiteSpace c = false end.
Proof.
  induction s as [|c s IH]; simpl; [done|].
  destruct (isWhiteSpace c) eqn:E; [done | by simpl].
Qed.

Lemma trimStart_blank (s : string) : trimStart s = "" ↔ blank s = true.
Proof.
  induction s as [|c s IH]; simpl; [done|].
  destruct (isWhiteSpace c); simpl; [done | by split].
Qed.

Lemma trimEnd_blank (s : string) : trimEnd s = "" ↔ blank s = true.
Proof.
  induction s as [|c s IH]; simpl; [done|].
  destruct (trimEnd s) eqn:E.
  - destruct (isWhiteSpace c); simpl; [tauto | by split].
  - rewrite andb_true_iff. split; [done|]. intros [_ Hb]. apply IH in Hb. done.
Qed.

(** The trimmed text is empty exactly for the empty and the
    white-space-only texts. *)
Lemma trim_blank (s : string) : trim s = "" ↔ blank s = true.
Proof.
  unfold trim. rewrite trimEnd_blank. split.
  - intros Hb. apply trimStart_blank.
    pose proof (trimStart_head s) as Hh.
    destruct (trimStart s) as [|c t]; [done|].
    simpl in Hb. by rewrite Hh in Hb.
  - intros Hb. apply trimStart_blank in Hb. by rewrite Hb.
Qed.

End Strings.

(** ** IssuesPanel *)

Section IssuesPanelFacts.

Import IssuesPanel.

Lemma Selection_filter {A} (P : A → Prop) (f : A → bool) (l : list A) :
  (∀ x, f x = true ↔ P x) → Selection P l (List.filter f l).
Proof.
  intros Hf. induction l as [|x l IH]; simpl; [constructor|].
  destruct (f x) eqn:E.
  - apply Selection_keep; [by apply Hf | done].
  - apply Selection_skip; [|done]. rewrite <- Hf. congruence.
Qed.

(** A selection is a sublist whose members are the members that satisfy
    the predicate. *)
Lemma Selection_sublist {A} (P : A → Prop) (l v : list A) :
  Selection P l v → sublist v l ∧ ∀ x, x ∈ v ↔ x ∈ l ∧ P x.
Proof.
  induction 1 as [|x l v HP _ [IHs IHm]|x l v HP _ [IHs IHm]].
  - split; [done|]. intros x. rewrite elem_of_nil. tauto.
  - split; [by apply sublist_skip|]. intros y.
    rewrite !elem_of_cons, IHm. split; [|tauto].
    intros [->|[??]]; tauto.
  - split; [by apply sublist_cons|]. intros y.
    rewrite elem_of_cons, IHm. split; [tauto|].
    intros [[->|?] ?]; tauto.
Qed.

Lemma keep_All (i : Issue) : keep All i = true.
Proof. reflexivity. Qed.

Lemma keep_Only (s : Severity) (i : Issue) : keep (Only s) i = true ↔ severity i = s.
Proof. destruct s, i as [? ? [] ? ?]; simpl; by split. Qed.

Lemma filter_all {A} (f : A → bool) (l : list A) :
  (∀ x, f x = true) → List.filter f l = l.
Proof.
  intros Hf. induction l as [|x l IH]; simpl; [done|]. by rewrite Hf, IH.
Qed.

(** C6: with the filter "All" the visible list is the list of issues; with
    a severity as filter it is the selection of the issues of that
    severity, in their order; the header shows the number of visible
    issues and the number of issues, and the first never exceeds the
    second. *)
Theorem C6_visible_issues (issues : list Issue) :
  visible issues All = issues
  ∧ (∀ s : Severity, Selection (λ i, severity i = s) issues (visible issues (Only s)))
  ∧ (∀ f : Filter,
       header issues f
       = "Issues Found (" +:+ pretty (length (visible issues f)) +:+ "/"
           +:+ pretty (length issues) +:+ ")"
       ∧ (length (visible issues f) ≤ length issues)%nat).
Proof.
  split; [|split].
  - apply filter_all, keep_All.
  - intros s. apply Selection_filter. intros i. apply keep_Only.
  - intros f. split; [done|]. apply List.filter_length_le.
Qed.

End IssuesPanelFacts.

(** ** Language detection *)

Section Detection.

Import Index.

(** The chain of tests of [handleCodeChange] visits the languages in the
    order of [spec_priority]. *)
Lemma detectedLanguage_chain (code : string) :
  detectedLanguage code =
    if spec_marked code Python then "python"
    else if spec_marked code Java then "java"
    else if spec_marked code Cpp then "cpp"
    else if spec_marked code CLang then "c"
    else if spec_marked code TypeScript then "typescript"
    else if spec_marked code JavaScript then "javascript"
    else "".
Proof. reflexivity. Qed.

Lemma detectedLanguage_spec (code : string) :
  detectedLanguage code = from_option spec_name "" (spec_detect code).
Proof.
  rewrite detectedLanguage_chain. unfold spec_detect, spec_priority.
  generalize (spec_marked code). intros f. cbn [find].
  destruct (f Python); [done|]. destruct (f Java); [done|].
  destruct (f Cpp); [done|]. destruct (f CLang); [done|].
  destruct (f TypeScript); [done|]. by destruct (f JavaScript).
Qed.

Lemma spec_name_not_auto (l : Lang) : String.eqb (spec_name l) "auto" = false.
Proof. by destruct l. Qed.

Lemma spec_name_truthy (l : Lang) : truthy (spec_name l) = true.
Proof. by destruct l. Qed.

(** What [handleCodeChange] does to the selected language when detection
    is on and the trimmed text is not empty. *)
Lemma handleCodeChange_language (r : State) (w : World) (newCode : string) :
  language r = "auto" →
  trim newCode ≠ "" →
  language (state (exec (handleCodeChange r newCode) w))
  = from_option spec_name (language (state w))
      (spec_detect (toLowerCase (trim newCode))).
Proof.
  intros Hr Ht. apply truthy_spec in Ht.
  unfold handleCodeChange, exec. cbn [mbind M_bind setCode modify].
  rewrite Hr, Ht. cbn [String.eqb andb].
  rewrite detectedLanguage_spec.
  destruct (spec_detect _) as [l|]; cbn [from_option].
  - change (String.eqb "auto" "auto") with true. cbn [andb].
    rewrite spec_name_truthy, spec_name_not_auto. reflexivity.
  - reflexivity.
Qed.

(** C1: a text whose trimmed, lower-cased form contains "console.log" and
    no marker of Python, Java, C++, C or TypeScript is detected as
    "javascript" by [handleCodeChange] when the selected language is
    "auto" and the trimmed text is not empty. *)
Theorem C1_console_log_javascript (r : State) (w : World) (newCode : string) :
  language r = "auto" →
  trim newCode ≠ "" →
  includes (toLowerCase (trim newCode)) "console.log" = true →
  (∀ l, l ∈ [Python; Java; Cpp; CLang; TypeScript] →
        spec_marked (toLowerCase (trim newCode)) l = false) →
  detectedLanguage (toLowerCase (trim newCode)) = "javascript"
  ∧ language (state (exec (handleCodeChange r newCode) w)) = "javascript".
Proof.
  intros Hr Ht Hlog Hnone.
  assert (spec_detect (toLowerCase (trim newCode)) = Some JavaScript) as Hd.
  { unfold spec_detect, spec_priority. cbn [find].
    rewrite !Hnone by (rewrite !elem_of_cons; tauto).
    unfold spec_marked. rewrite Hlog, !orb_true_r. reflexivity. }
  split.
  - by rewrite detectedLanguage_spec, Hd.
  - by rewrite handleCodeChange_language, Hd.
Qed.

Lemma C1_witness :
  language (state (exec (handleCodeChange initialState "  Console.LOG(1);  ") initialWorld))
  = "javascript".
Proof.
  apply (C1_console_log_javascript initialState initialWorld "  Console.LOG(1);  ").
  - reflexivity.
  - vm_compute. discriminate.
  - vm_compute. reflexivity.
  - intros l Hl. rewrite !elem_of_cons, elem_of_nil in Hl.
    destruct Hl as [->|[->|[->|[->|[->|[]]]]]]; vm_compute; reflexivity.
Defined.

(** C2, as the code has it: the detection yields at most one language,
    the first one in the order Python, Java, C++, C, TypeScript,
    JavaScript of which the trimmed, lower-cased text shows a marker; it
    becomes the selected language, and nothing is selected when no marker
    shows.  In particular a text whose trimmed, lower-cased form contains
    "import " is detected as Python whatever else it contains. *)
Theorem C2_priority_order (r : State) (w : World) (newCode : string) :
  language r = "auto" →
  trim newCode ≠ "" →
  detectedLanguage (toLowerCase (trim newCode))
  = from_option spec_name "" (spec_detect (toLowerCase (trim newCode)))
  ∧ language (state (exec (handleCodeChange r newCode) w))
    = from_option spec_name (language (state w)) (spec_detect (toLowerCase (trim newCode)))
  ∧ (includes (toLowerCase (trim newCode)) "import " = true →
     spec_detect (toLowerCase (trim newCode)) = Some Python
     ∧ language (state (exec (handleCodeChange r newCode) w)) = "python").
Proof.
  intros Hr Ht. split; [apply detectedLanguage_spec|].
  split; [by apply handleCodeChange_language|].
  intros Himp.
  assert (spec_detect (toLowerCase (trim newCode)) = Some Python) as Hd.
  { unfold spec_detect, spec_priority. cbn [find]. unfold spec_marked at 1.
    by rewrite Himp, orb_true_r. }
  split; [done|]. by rewrite handleCodeChange_language, Hd.
Qed.

Lemma C2_witness :
  language (state (exec (handleCodeChange initialState
                           "import React from 'react'; const f = () => console.log(1);")
                     initialWorld))
  = "python".
Proof.
  refine (proj2 (proj2 (proj2 (C2_priority_order initialState initialWorld
            "import React from 'react'; const f = () => console.log(1);" _ _)) _)).
  - reflexivity.
  - vm_compute. discriminate.
  - vm_compute. reflexivity.
Defined.

(** C2 as it is worded fails: a text that contains "import " only at its
    very end (so that, lower-cased, its highest-priority marker is one of
    Python) loses the blank when it is trimmed, and is detected by its
    other markers. *)
Lemma C2_counterexample :
  includes "console.log(1); import " "import " = true
  ∧ spec_detect (toLowerCase "console.log(1); import ") = Some Python
  ∧ language (state (exec (handleCodeChange initialState "console.log(1); import ")
                       initialWorld))
    = "javascript"
  ∧ language (state (exec (handleCodeChange initialState "console.log(1); import ")
                       initialWorld))
    ≠ "python".
Proof. vm_compute. repeat split; discriminate. Qed.

End Detection.

(** ** Handler code: sequencing and frames *)

Section Frames.

Import Index.

Lemma exec_bind {A B} (m : M A) (k : A → M B) (w : World) :
  exec (m ≫= k) w = exec (k (eval m w)) (exec m w).
Proof. unfold exec, eval, mbind, M_bind. by destruct (m w). Qed.

Lemma eval_bind {A B} (m : M A) (k : A → M B) (w : World) :
  eval (m ≫= k) w = eval (k (eval m w)) (exec m w).
Proof. unfold exec, eval, mbind, M_bind. by destruct (m w). Qed.

Lemma run_pair {A} (m : M A) (w : World) : m w = (eval m w, exec m w).
Proof. unfold exec, eval. by destruct (m w). Qed.

Lemma preserves_bind {A B C} (f : World → C) (m : M A) (k : A → M B) :
  preserves f m → (∀ a, preserves f (k a)) → preserves f (m ≫= k).
Proof. intros Hm Hk w. by rewrite exec_bind, Hk, Hm. Qed.

Lemma preserves_ret {A B} (f : World → B) (a : A) : preserves f (mret a).
Proof. by intros w. Qed.

End Frames.

(** Splits a handler into its primitive actions and checks that each of
    them leaves the observation alone. *)
Ltac frame :=
  repeat first
    [ apply preserves_ret
    | apply preserves_bind; [|intros ?]
    | match goal with
      | |- Index.preserves _ (if ?b then _ else _) => destruct b
      | |- Index.preserves _ (match ?x with _ => _ end) => destruct x
      end
    | by intros ? ].

(** Runs the primitive actions of a handler on the world at hand. *)
Ltac run_handler :=
  cbv [mbind mret Index.M_bind Index.M_ret Index.exec Index.eval];
  cbn [Index.modify Index.emit
       Index.setCode Index.setLanguage Index.setIsAnalyzing Index.setIsFixing
       Index.setAnalysisResult Index.setScrollToLine Index.setHistory
       Index.readFixTimeoutRef Index.writeFixTimeoutRef Index.callSetTimeout
       Index.callRandomUUID Index.exec Index.eval fst snd
       Index.state Index.fixTimeoutRef Index.trace Index.uuidCalls Index.timerCalls
       Index.code Index.language Index.isAnalyzing Index.isFixing
       Index.analysisResult Index.scrollToLine Index.history].

Section AnalyzeFacts.

Import Index.

Variable randomUUID : nat → string.

Lemma orEmpty_id (s : string) : orEmpty s = s.
Proof. by destruct s. Qed.

(** The first part of [handleAnalyze] never touches the result or the
    history, and draws no UUID. *)
Lemma handleAnalyze_frame (r : State) (o : option string) :
  preserves (λ w, (analysisResult (state w), history (state w), uuidCalls w,
                   code (state w), isFixing (state w), language (state w)))
    (handleAnalyze r o).
Proof. unfold handleAnalyze. frame. Qed.

Lemma handleAnalyze_blank (r : State) (o : option string) (w : World) :
  trim (default (code r) o) = "" →
  handleAnalyze r o w
  = (None, mkWorld (state w) (fixTimeoutRef w)
             (trace w ++ [toast_error "Please paste or type some code before analyzing."])
             (uuidCalls w) (timerCalls w)).
Proof.
  intros Ht. unfold handleAnalyze. rewrite orEmpty_id, Ht. reflexivity.
Qed.

Lemma handleAnalyze_sends (r : State) (o : option string) (w : World) :
  trim (default (code r) o) ≠ "" →
  handleAnalyze r o w
  = (Some (RequestBody.mk (trim (default (code r) o)) (language r)),
     mkWorld (mkState (code (state w)) (language (state w)) true (isFixing (state w))
                (analysisResult (state w)) None (history (state w)))
       (fixTimeoutRef w)
       (trace w ++ [toast_info "Analyzing your code..."]
                ++ [fetch "/api/analyze"
                      (RequestBody.mk (trim (default (code r) o)) (language r))])
       (uuidCalls w) (timerCalls w)).
Proof.
  intros Ht. apply truthy_spec in Ht. unfold handleAnalyze.
  rewrite orEmpty_id, Ht. cbn [negb]. run_handler. by rewrite <- app_assoc.
Qed.

Lemma requestsTo_app (url : string) (t1 t2 : list Effect) :
  requestsTo url (t1 ++ t2) = requestsTo url t1 ++ requestsTo url t2.
Proof. apply omap_app. Qed.

(** C3: for an empty or white-space-only source [handleAnalyze] shows
    "Please paste or type some code before analyzing." and returns: no
    request goes to /api/analyze and the state (so [analysisResult],
    [history] and [isAnalyzing]) is as before.  For every other source the
    request that goes out has the trimmed source as its [code]. *)
Theorem C3_analyze_guard (r : State) (overrideCode : option string) (w : World) :
  let source := default (code r) overrideCode in
  let w' := exec (handleAnalyze r overrideCode) w in
  (blank source = true →
     eval (handleAnalyze r overrideCode) w = None
     ∧ trace w' = trace w ++ [toast_error "Please paste or type some code before analyzing."]
     ∧ requestsTo "/api/analyze" (trace w') = requestsTo "/api/analyze" (trace w)
     ∧ state w' = state w)
  ∧ (blank source = false →
     ∃ body,
       eval (handleAnalyze r overrideCode) w = Some body
       ∧ requestsTo "/api/analyze" (trace w') = requestsTo "/api/analyze" (trace w) ++ [body]
       ∧ RequestBody.code body = trim source).
Proof.
  intros source w'. subst w'. unfold exec, eval. split; intros Hb.
  - apply trim_blank in Hb. rewrite handleAnalyze_blank by done. run_handler.
    rewrite requestsTo_app. cbn. by rewrite app_nil_r.
  - assert (trim source ≠ "") as Ht.
    { intros Ht%trim_blank. congruence. }
    rewrite handleAnalyze_sends by done. run_handler.
    eexists. split; [done|]. split; [|done].
    by rewrite !requestsTo_app.
Qed.

(** C4, as the code has it: when the request to /api/analyze fails (no
    response, a status that is not ok, or a body that cannot be read as
    JSON) [handleAnalyze] logs the error, reports "Failed to analyze code"
    and leaves [analysisResult] and [history] as they were, as does the
    first part of the call; and [isAnalyzing] is false once the call is
    over, whatever the reply. *)
Theorem C4_analyze_failure (r : State) (overrideCode : option string)
    (failure : Failure) (w : World) :
  let w1 := exec (handleAnalyze r overrideCode) w in
  (analysisResult (state w1) = analysisResult (state w)
   ∧ history (state w1) = history (state w))
  ∧ (∀ w2 : World,
       let w3 := exec (handleAnalyze_settled randomUUID r (Failed failure)) w2 in
       trace w3 = trace w2 ++ [console_error (thrown "Analyze" failure);
                               toast_error "Failed to analyze code"]
       ∧ analysisResult (state w3) = analysisResult (state w2)
       ∧ history (state w3) = history (state w2)
       ∧ isAnalyzing (state w3) = false)
  ∧ (∀ (reply : Reply AnalyzeResponse.t) (w2 : World),
       isAnalyzing (state (exec (handleAnalyze_settled randomUUID r reply) w2)) = false).
Proof.
  cbn zeta. split; [|split].
  - pose proof (handleAnalyze_frame r overrideCode w) as Hf. cbn beta in Hf.
    by inversion Hf.
  - intros w2. unfold handleAnalyze_settled. run_handler. by rewrite <- app_assoc.
  - intros reply w2. unfold handleAnalyze_settled. rewrite exec_bind. reflexivity.
Qed.

End AnalyzeFacts.

(** On replies of the declared type the handler of [Untyped] is the
    handler of [Index]. *)
Lemma untyped_handleAnalyze_settled (randomUUID : nat → string) (r : Index.State)
    (reply : Reply AnalyzeResponse.t) (w : Index.World) :
  Untyped.handleAnalyze_settled randomUUID (Untyped.ofState r) (Untyped.ofReply reply)
    (Untyped.ofWorld w)
  = Untyped.ofWorld (Index.exec (Index.handleAnalyze_settled randomUUID r reply) w).
Proof.
  destruct reply as [failure|data]; [reflexivity|].
  unfold Untyped.handleAnalyze_settled, Index.handleAnalyze_settled.
  cbn [Untyped.ofReply Untyped.ofState Untyped.selected Untyped.ofResponse Untyped.language].
  destruct (String.eqb (Index.language r) "auto"
            && negb (String.eqb (AnalyzeResponse.language data) "auto"));
    destruct data; run_handler; unfold Untyped.ofWorld, Untyped.ofState;
    cbn [Index.state Index.history Index.analysisResult Index.code Index.language
         Index.isAnalyzing Index.isFixing Index.scrollToLine Index.fixTimeoutRef
         Index.trace Index.uuidCalls Index.timerCalls];
    rewrite fmap_take; reflexivity.
Qed.

(** Also on a parsed body of any shape [isAnalyzing] is false in the end. *)
Lemma untyped_isAnalyzing (randomUUID : nat → string) (r : Untyped.State)
    (reply : Reply Untyped.Body) (w : Untyped.World) :
  Untyped.isAnalyzing (Untyped.state (Untyped.handleAnalyze_settled randomUUID r reply w))
  = false.
Proof. reflexivity. Qed.

(** C4 as it is worded fails: a reply with status 200 whose body parses
    but has no [issues] cannot be processed, and "Failed to analyze code"
    is reported for it, yet by then [analysisResult] holds the body and
    the history has an entry for it. *)
Lemma C4_counterexample :
  let body := Untyped.mkBody 90 None (mkMetrics 1 90 90) "python" "2024-01-01T00:00:00" "x = 1" in
  let w := Untyped.ofWorld
             (Index.exec (Index.handleAnalyze Index.initialState None) Index.initialWorld) in
  let w' := Untyped.handleAnalyze_settled pretty (Untyped.ofState Index.initialState)
              (OkJson body) w in
  last (Untyped.trace w') = Some (Index.toast_error "Failed to analyze code")
  ∧ Untyped.analysisResult (Untyped.state w) = None
  ∧ Untyped.analysisResult (Untyped.state w') = Some (Untyped.Fresh body)
  ∧ Untyped.history (Untyped.state w) = []
  ∧ Untyped.history (Untyped.state w') = [Untyped.mkItem "0" body]
  ∧ Untyped.isAnalyzing (Untyped.state w') = false.
Proof. vm_compute. done. Qed.

(** A request that comes back with status 500. *)
Example analyze_status_500 :
  let w1 := Index.exec (Index.handleAnalyze Index.initialState None) Index.initialWorld in
  let w3 := Index.exec (Index.handleAnalyze_settled pretty Index.initialState
                          (Failed (NotOk 500))) w1 in
  Index.trace w3 = Index.trace w1 ++ [Index.console_error (Error "Analyze failed: 500");
                                      Index.toast_error "Failed to analyze code"]
  ∧ Index.analysisResult (Index.state w3) = None
  ∧ Index.history (Index.state w3) = []
  ∧ Index.isAnalyzing (Index.state w3) = false.
Proof. vm_compute. done. Qed.

(** ** The history *)

Section HistoryFacts.

Import Index.

Variable randomUUID : nat → string.

(** Every step of the page runs one of the handlers on the live world. *)
Lemma step_world_ind (P : World → World → Prop) :
  (∀ r c w, P w (exec (handleCodeChange r c) w)) →
  (∀ v w, P w (exec (setLanguage v) w)) →
  (∀ w, P w (exec handleReset w)) →
  (∀ r o w, P w (exec (handleAnalyze r o) w)) →
  (∀ r w, P w (exec (handleFix r) w)) →
  (∀ html r w, P w (exec (handleDownload html r) w)) →
  (∀ v w, P w (exec (setScrollToLine v) w)) →
  (∀ h w, P w (exec (loadHistory h) w)) →
  (∀ r reply w, P w (exec (handleAnalyze_settled randomUUID r reply) w)) →
  (∀ r reply w, P w (exec (handleFix_analyzed randomUUID r reply) w)) →
  (∀ r reply w, P w (exec (handleFix_settled r reply) w)) →
  (∀ html reply w, P w (exec (handleDownload_settled html reply) w)) →
  ∀ ev p p', step randomUUID ev p = Some p' → P (world p) (world p').
Proof.
  intros H1 H2 H3 H4 H5 H6 H7 H8 H9 H10 H11 H12 ev p p' Hstep.
  destruct ev; cbn [step] in Hstep;
    try rewrite run_pair in Hstep;
    try (injection Hstep as <-; cbn [world]; auto; fail).
  - destruct (history (state (world p)) !! n); [|done].
    injection Hstep as <-. apply H8.
  - destruct (pending p !! n) as [[r0 [|]| |]|]; try done;
      injection Hstep as <-; cbn [world]; auto.
  - destruct (pending p !! n) as [[| r0 |]|]; try done.
    rewrite run_pair in Hstep. injection Hstep as <-. apply H11.
  - destruct (pending p !! n) as [[| |html]|]; try done.
    injection Hstep as <-. apply H12.
Qed.

Lemma historyWf_frame {A} (m : M A) :
  preserves (λ w, (history (state w), uuidCalls w)) m →
  ∀ w, historyWf randomUUID w → historyWf randomUUID (exec m w).
Proof.
  intros Hm w. specialize (Hm w). cbn beta in Hm.
  unfold historyWf, historyIds. inversion Hm as [[Hh Hu]]. by rewrite Hh, Hu.
Qed.

(** A successful analysis puts the reply, with the next UUID, in front of
    the history and keeps the first ten entries. *)
Lemma handleAnalyze_settled_ok (r : State) (data : AnalyzeResponse.t) (w : World) :
  let w' := exec (handleAnalyze_settled randomUUID r (OkJson data)) w in
  history (state w')
  = take 10 (HistoryItem.mk (randomUUID (uuidCalls w)) data :: history (state w))
  ∧ uuidCalls w' = S (uuidCalls w)
  ∧ analysisResult (state w') = Some (Fresh data)
  ∧ isAnalyzing (state w') = false.
Proof.
  unfold handleAnalyze_settled.
  destruct (String.eqb (language r) "auto"
            && negb (String.eqb (AnalyzeResponse.language data) "auto")); by run_handler.
Qed.

Lemma handleAnalyze_settled_failed (r : State) (failure : Failure) :
  preserves (λ w, (history (state w), uuidCalls w))
    (handleAnalyze_settled randomUUID r (Failed failure)).
Proof. by intros w. Qed.

Hypothesis randomUUID_inj : Inj (=) (=) randomUUID.

Lemma fresh_uuid (w : World) :
  historyWf randomUUID w → randomUUID (uuidCalls w) ∉ historyIds w.
Proof.
  intros (_ & Hdrawn & _) Hin.
  rewrite Forall_forall in Hdrawn. destruct (Hdrawn _ Hin) as (k & Hk & Heq).
  apply randomUUID_inj in Heq. lia.
Qed.

Lemma historyWf_settled (r : State) (reply : Reply AnalyzeResponse.t) (w : World) :
  historyWf randomUUID w →
  historyWf randomUUID (exec (handleAnalyze_settled randomUUID r reply) w).
Proof.
  intros Hwf. destruct reply as [failure|data];
    [apply historyWf_frame; [apply handleAnalyze_settled_failed | done]|].
  pose proof (fresh_uuid w Hwf) as Hfresh.
  destruct (handleAnalyze_settled_ok r data w) as (Hh & Hu & _).
  destruct Hwf as (Hnd & Hdrawn & Hlen).
  unfold historyWf, historyIds in *. rewrite Hh, Hu, fmap_take, fmap_cons.
  cbn [HistoryItem.id]. split; [|split].
  - eapply sublist_NoDup; [by apply NoDup_cons | apply sublist_take].
  - apply Forall_take, Forall_cons. split; [exists (uuidCalls w); split; [lia | done]|].
    eapply Forall_impl; [done|]. intros i (k & Hk & ->). exists k. split; [lia | done].
  - rewrite length_take. lia.
Qed.

Lemma handleFix_finally_frame :
  preserves (λ w, (history (state w), uuidCalls w, analysisResult (state w),
                   code (state w), language (state w), isAnalyzing (state w)))
    handleFix_finally.
Proof. unfold handleFix_finally. frame. Qed.

Lemma historyWf_step (ev : Event) (p p' : Page) :
  step randomUUID ev p = Some p' →
  historyWf randomUUID (world p) → historyWf randomUUID (world p').
Proof.
  revert ev p p'.
  apply (step_world_ind (λ w w', historyWf randomUUID w → historyWf randomUUID w')).
  - intros r c. apply historyWf_frame. unfold handleCodeChange. frame.
  - intros v. apply historyWf_frame. frame.
  - apply historyWf_frame. unfold handleReset. frame.
  - intros r o. apply historyWf_frame. unfold handleAnalyze. frame.
  - intros r. apply historyWf_frame. unfold handleFix. frame.
  - intros html r. apply historyWf_frame. unfold handleDownload. frame.
  - intros v. apply historyWf_frame. frame.
  - intros h. apply historyWf_frame. unfold loadHistory. frame.
  - intros r reply w. apply historyWf_settled.
  - intros r reply w Hwf. unfold handleFix_analyzed. rewrite exec_bind.
    apply historyWf_frame; [unfold handleFix_finally; frame|].
    by apply historyWf_settled.
  - intros r reply. apply historyWf_frame.
    unfold handleFix_settled, handleAnalyze, handleFix_finally. frame.
  - intros html reply. apply historyWf_frame. unfold handleDownload_settled. frame.
Qed.

Lemma reachable_historyWf (p : Page) :
  reachable randomUUID p → historyWf randomUUID (world p).
Proof.
  induction 1 as [|p ev p' _ IH Hstep].
  - repeat split; cbn; [constructor | constructor | lia].
  - by eapply historyWf_step.
Qed.

(** C8: given that [randomUUID] never returns the same value twice, in
    every state the page can reach the history has at most ten entries,
    whose ids are pairwise different results of [randomUUID].  A completed
    analysis puts its entry first: the reply as it came, with an id drawn
    for it that no entry had before; the other entries are what was there
    before, cut after the tenth.  Loading an entry makes it the
    [analysisResult] and leaves the history alone. *)
Theorem C8_history :
  (∀ p, reachable randomUUID p → historyWf randomUUID (world p))
  ∧ (∀ (r : State) (data : AnalyzeResponse.t) (w : World),
       historyWf randomUUID w →
       let w' := exec (handleAnalyze_settled randomUUID r (OkJson data)) w in
       let entry := HistoryItem.mk (randomUUID (uuidCalls w)) data in
       history (state w') = take 10 (entry :: history (state w))
       ∧ head (history (state w')) = Some entry
       ∧ (HistoryItem.id entry ∉ historyIds w)
       ∧ ((length (history (state w')) ≤ 10)%nat)
       ∧ NoDup (historyIds w'))
  ∧ (∀ (h : HistoryItem.t) (w : World),
       let w' := exec (loadHistory h) w in
       analysisResult (state w') = Some (Loaded h)
       ∧ asResponse (Loaded h) = HistoryItem.response h
       ∧ history (state w') = history (state w)).
Proof.
  split; [apply reachable_historyWf|]. split.
  - intros r data w Hwf w' entry.
    destruct (handleAnalyze_settled_ok r data w) as (Hh & _).
    pose proof (historyWf_settled r (OkJson data) w Hwf) as (Hnd & _ & Hlen).
    fold w' in Hh, Hnd, Hlen. fold entry in Hh.
    split; [done|]. split; [by rewrite Hh|]. split; [by apply fresh_uuid|]. done.
  - intros h w. by cbn.
Qed.

End HistoryFacts.

Lemma C8_witness :
  Index.history (Index.state (Index.exec
     (Index.handleAnalyze_settled pretty Index.initialState (OkJson sampleReply))
     Index.initialWorld))
  = take 10 [HistoryItem.mk (pretty 0%nat) sampleReply].
Proof.
  refine (proj1 (proj1 (proj2 (C8_history pretty pretty_nat_inj))
                   Index.initialState sampleReply Index.initialWorld _)).
  repeat split; cbn; [constructor | constructor | lia].
Defined.

(** ** Reset *)

(** C10: [handleReset] puts the default snippet in the editor, clears
    [analysisResult] and [scrollToLine] and shows one toast; the selected
    language, the history, both progress flags, the timer reference and
    the counters are as before. *)
Theorem C10_reset (w : Index.World) :
  let w' := Index.exec Index.handleReset w in
  Index.state w'
  = Index.mkState Index.defaultCode (Index.language (Index.state w))
      (Index.isAnalyzing (Index.state w)) (Index.isFixing (Index.state w))
      None None (Index.history (Index.state w))
  ∧ Index.trace w' = Index.trace w ++ [Index.toast_info "Code reset to default"]
  ∧ Index.fixTimeoutRef w' = Index.fixTimeoutRef w
  ∧ Index.uuidCalls w' = Index.uuidCalls w
  ∧ Index.timerCalls w' = Index.timerCalls w.
Proof. by cbn. Qed.

(** ** Fixes *)

Section FixFacts.

Import Index.

Variable randomUUID : nat → string.

Lemma hasChanges_spec (changes : list string) :
  hasChanges changes = false ↔ changes = [] ∨ changes = ["No changes"].
Proof.
  unfold hasChanges. destruct changes as [|c [|c' changes]]; cbn.
  - split; [by left | done].
  - case_bool_decide as Hc; cbn.
    + split; [intros _; right; congruence | done].
    + split; [done | intros [?|?]; [done | congruence]].
  - split; [done | by intros [?|?]].
Qed.

(** [handleFix] after a good reply: the new code, the message, and then
    the first part of [handleAnalyze] on the new code. *)
Lemma handleFix_settled_ok (r : State) (fx : FixResponse.t) (w : World) :
  handleFix_settled r (OkJson fx) w
  = let w1 := exec (setCode (FixResponse.fixedCode fx);; emit (fixMessage fx)) w in
    match handleAnalyze r (Some (FixResponse.fixedCode fx)) w1 with
    | (Some body, w2) => (Some body, w2)
    | (None, w2) => (None, exec handleFix_finally w2)
    end.
Proof.
  unfold handleFix_settled. cbv [mbind mret M_bind M_ret exec].
  cbn [setCode modify emit snd].
  by destruct (handleAnalyze _ _ _) as [[body|] w2].
Qed.

Lemma requestsTo_fixMessage (url : string) (fx : FixResponse.t) :
  requestsTo url [fixMessage fx] = [].
Proof. unfold fixMessage. by destruct (hasChanges _). Qed.

(** C5, as the code has it: after a good reply of /api/fix the editor
    holds the returned [fixedCode]; when [fixedCode] is not blank an
    analysis request with the trimmed [fixedCode] (and the language of the
    render) goes out at once; when it is blank no analysis request goes
    out and the empty-source message is shown.  When the list of changes
    is empty or is the single entry "No changes" the message of the fix
    is "No fixes needed." and no success message follows it; otherwise it
    is the success message that lists the changes. *)
Theorem C5_fix_applied (r : State) (fx : FixResponse.t) (w : World) :
  let w' := exec (handleFix_settled r (OkJson fx)) w in
  let fixedCode := FixResponse.fixedCode fx in
  let body := RequestBody.mk (trim fixedCode) (language r) in
  code (state w') = fixedCode
  ∧ (blank fixedCode = false →
       eval (handleFix_settled r (OkJson fx)) w = Some body
       ∧ requestsTo "/api/analyze" (trace w') = requestsTo "/api/analyze" (trace w) ++ [body])
  ∧ (blank fixedCode = true →
       eval (handleFix_settled r (OkJson fx)) w = None
       ∧ requestsTo "/api/analyze" (trace w') = requestsTo "/api/analyze" (trace w)
       ∧ toast_error "Please paste or type some code before analyzing." ∈ trace w')
  ∧ (∃ rest, trace w' = trace w ++ fixMessage fx :: rest
             ∧ ∀ m, toast_success m ∉ rest)
  ∧ (FixResponse.changes fx = [] ∨ FixResponse.changes fx = ["No changes"] →
       fixMessage fx = toast_info "No fixes needed.")
  ∧ (hasChanges (FixResponse.changes fx) = true →
       fixMessage fx = toast_success ("Fixed with " +:+ FixResponse.source fx +:+ ": "
                                        +:+ join ", " (FixResponse.changes fx))).
Proof.
  intros w' fixedCode body. subst w'. unfold exec, eval.
  rewrite handleFix_settled_ok. cbn zeta.
  set (w1 := exec _ w).
  assert (code (state w1) = fixedCode ∧ trace w1 = trace w ++ [fixMessage fx])
    as [Hc1 Ht1] by done.
  destruct (blank fixedCode) eqn:Hb.
  - assert (trim fixedCode = "") as Ht by by apply trim_blank.
    rewrite handleAnalyze_blank by done. cbn [fst snd].
    unfold handleFix_finally. run_handler. rewrite Hc1, Ht1.
    repeat split; try done.
    + rewrite !requestsTo_app, requestsTo_fixMessage. cbn. by rewrite !app_nil_r.
    + rewrite !elem_of_app, !elem_of_cons. tauto.
    + eexists. split; [by rewrite <- !app_assoc|].
      intros m. cbn [app]. rewrite !elem_of_cons, elem_of_nil. by intros [?|[?|[]]].
    + intros Hch%hasChanges_spec. unfold fixMessage. by rewrite Hch.
    + intros Hch. unfold fixMessage. by rewrite Hch.
  - assert (trim fixedCode ≠ "") as Ht.
    { intros Ht%trim_blank. congruence. }
    rewrite handleAnalyze_sends by done. cbn [fst snd]. run_handler.
    rewrite Hc1, Ht1.
    repeat split; try done.
    + rewrite !requestsTo_app, requestsTo_fixMessage. cbn. by rewrite !app_nil_r.
    + eexists. split; [by rewrite <- !app_assoc|].
      intros m. cbn [app]. rewrite !elem_of_cons, elem_of_nil. by intros [?|[?|[]]].
    + intros Hch%hasChanges_spec. unfold fixMessage. by rewrite Hch.
    + intros Hch. unfold fixMessage. by rewrite Hch.
Qed.

End FixFacts.

(** C5 as it is worded fails: when the fix returns an empty text (here the
    only statement was removed) [handleFix] starts the analysis, which
    returns at its guard, and no request goes to /api/analyze. *)
Lemma C5_counterexample :
  let r := Index.mkState "console.log(1)" "javascript" false false None None [] in
  let w0 := Index.mkWorld r None [] 0 0 in
  let w1 := Index.exec (Index.handleFix r) w0 in
  let reply := OkJson (FixResponse.mk "" ["Removed console.log"] "local" "javascript") in
  let w2 := Index.exec (Index.handleFix_settled r reply) w1 in
  Index.requestsTo "/api/fix" (Index.trace w1) = [RequestBody.mk "console.log(1)" "javascript"]
  ∧ Index.code (Index.state w2) = ""
  ∧ Index.requestsTo "/api/analyze" (Index.trace w2) = []
  ∧ Index.isFixing (Index.state w2) = false.
Proof. vm_compute. done. Qed.

(** ** One fix at a time *)

Section FixGuard.

Import Index.

Variable randomUUID : nat → string.

Lemma count_app {A} (f : A → bool) (l1 l2 : list A) :
  length (List.filter f (l1 ++ l2))
  = (length (List.filter f l1) + length (List.filter f l2))%nat.
Proof. by rewrite List.filter_app, length_app. Qed.

(** Taking the n-th element away lowers the count by one when the element
    counts and leaves it otherwise. *)
Lemma count_delete {A} (f : A → bool) (l : list A) (n : nat) (x : A) :
  l !! n = Some x →
  length (List.filter f l)
  = (length (List.filter f (delete n l)) + if f x then 1 else 0)%nat.
Proof.
  intros Hx. rewrite delete_take_drop.
  rewrite <- (take_drop_middle l n x Hx) at 1.
  rewrite !count_app. cbn [List.filter]. destruct (f x); cbn [length]; lia.
Qed.

Lemma awaitsFix_inFix (l : list Suspended) :
  (length (List.filter awaitsFix l) ≤ length (List.filter inFix l))%nat.
Proof.
  induction l as [|[r [|]|r|html] l IH]; cbn; lia.
Qed.

(** What a call of [handleFix] comes to: it returns at one of its guards
    and changes nothing, or it starts from a render with [isFixing] false,
    sets the flag and sends its request. *)
Lemma handleFix_cases (r : State) (w : World) :
  let w' := exec (handleFix r) w in
  (eval (handleFix r) w = None
   ∧ state w' = state w
   ∧ requestsTo "/api/fix" (trace w') = requestsTo "/api/fix" (trace w))
  ∨ (∃ body, eval (handleFix r) w = Some body
       ∧ isFixing r = false
       ∧ isFixing (state w') = true
       ∧ requestsTo "/api/fix" (trace w') = requestsTo "/api/fix" (trace w) ++ [body]).
Proof.
  unfold handleFix. destruct (isFixing r).
  { left. run_handler. rewrite requestsTo_app. cbn. by rewrite app_nil_r. }
  destruct (truthy (trim (orEmpty (code r)))); cbn [negb].
  - right. eexists. run_handler.
    destruct (fixTimeoutRef w); run_handler;
      (split; [done|]); (split; [done|]); (split; [done|]);
      rewrite !requestsTo_app; cbn; by rewrite ?app_nil_r.
  - left. run_handler. rewrite requestsTo_app. cbn. by rewrite app_nil_r.
Qed.

Lemma handleAnalyze_isFixing (r : State) (o : option string) :
  preserves (λ w, isFixing (state w)) (handleAnalyze r o).
Proof. unfold handleAnalyze. frame. Qed.

Lemma handleFix_finally_isFixing (w : World) :
  isFixing (state (exec handleFix_finally w)) = false.
Proof. reflexivity. Qed.

(** The second part of [handleFix] either goes on to wait for the analysis
    and leaves [isFixing] alone, or ends and clears it. *)
Lemma handleFix_settled_isFixing (r : State) (reply : Reply FixResponse.t) (w : World) :
  let w' := exec (handleFix_settled r reply) w in
  match eval (handleFix_settled r reply) w with
  | Some _ => isFixing (state w') = isFixing (state w)
  | None => isFixing (state w') = false
  end.
Proof.
  destruct reply as [failure|fx]; [reflexivity|].
  cbn zeta. unfold exec, eval. rewrite handleFix_settled_ok. cbn zeta.
  set (w1 := exec _ w).
  pose proof (handleAnalyze_isFixing r (Some (FixResponse.fixedCode fx)) w1) as Hf.
  cbn beta in Hf. unfold exec in Hf at 1.
  destruct (handleAnalyze _ _ w1) as [[body|] w2]; cbn [fst snd] in *.
  - done.
  - reflexivity.
Qed.

Lemma handleFix_analyzed_isFixing (r : State) (reply : Reply AnalyzeResponse.t) (w : World) :
  isFixing (state (exec (handleFix_analyzed randomUUID r reply) w)) = false.
Proof. unfold handleFix_analyzed. by rewrite exec_bind. Qed.

Lemma handleAnalyze_settled_isFixing (r : State) (reply : Reply AnalyzeResponse.t) :
  preserves (λ w, isFixing (state w)) (handleAnalyze_settled randomUUID r reply).
Proof. unfold handleAnalyze_settled. frame. Qed.

Lemma oneFix_step (ev : Event) (p p' : Page) :
  step randomUUID ev p = Some p' → oneFix p → oneFix p'.
Proof.
  unfold oneFix, fixesInFlight. intros Hstep [Hle Hoff].
  destruct ev; cbn [step] in Hstep.
  - injection Hstep as <-. cbn [pending world]. split; [done|].
    assert (preserves (λ w, isFixing (state w))
              (handleCodeChange (state (world p)) newCode)) as Hf
      by (unfold handleCodeChange; frame).
    by rewrite (Hf (world p)).
  - by injection Hstep as <-.
  - by injection Hstep as <-.
  - rewrite run_pair in Hstep. injection Hstep as <-. cbn [pending world].
    rewrite (handleAnalyze_isFixing (state (world p)) None (world p)).
    rewrite count_app.
    destruct (eval _ _); cbn; (split; [lia|]); intros H; specialize (Hoff H); lia.
  - rewrite run_pair in Hstep. injection Hstep as <-. cbn [pending world].
    rewrite count_app.
    destruct (handleFix_cases (state (world p)) (world p))
      as [(-> & -> & _)|(body & -> & Hr & Hset & _)]; cbn.
    + split; [lia|]. intros H. specialize (Hoff H). lia.
    + specialize (Hoff Hr). split; [lia|]. congruence.
  - injection Hstep as <-. cbn [pending world]. rewrite count_app. cbn.
    split; [lia|]. intros H. specialize (Hoff H). lia.
  - by injection Hstep as <-.
  - destruct (history (state (world p)) !! n); [|done]. by injection Hstep as <-.
  - destruct (pending p !! n) as [[r0 inside| |]|] eqn:Hn; try done.
    injection Hstep as <-. cbn [pending world].
    pose proof (count_delete inFix _ _ _ Hn) as Hc. cbn [inFix] in Hc.
    destruct inside.
    + rewrite handleFix_analyzed_isFixing. split; [lia|]. intros _. lia.
    + rewrite (handleAnalyze_settled_isFixing r0 reply (world p)).
      split; [lia|]. intros H. specialize (Hoff H). lia.
  - destruct (pending p !! n) as [[| r0 |]|] eqn:Hn; try done.
    rewrite run_pair in Hstep. injection Hstep as <-. cbn [pending world].
    pose proof (count_delete inFix _ _ _ Hn) as Hc. cbn [inFix] in Hc.
    pose proof (handleFix_settled_isFixing r0 reply (world p)) as Hs.
    cbn zeta in Hs. rewrite count_app.
    destruct (eval (handleFix_settled r0 reply) (world p)); cbn.
    + split; [lia|]. rewrite Hs. intros H. specialize (Hoff H). lia.
    + split; [lia|]. intros _. lia.
  - destruct (pending p !! n) as [[| |html]|] eqn:Hn; try done.
    injection Hstep as <-. cbn [pending world].
    pose proof (count_delete inFix _ _ _ Hn) as Hc. cbn [inFix] in Hc.
    assert (preserves (λ w, isFixing (state w)) (handleDownload_settled html reply)) as Hf
      by (unfold handleDownload_settled; frame).
    rewrite (Hf (world p)). split; [lia|]. intros H. specialize (Hoff H). lia.
Qed.

Lemma reachable_oneFix (p : Page) : reachable randomUUID p → oneFix p.
Proof.
  induction 1 as [|p ev p' _ IH Hstep].
  - split; [cbn; lia | done].
  - by eapply oneFix_step.
Qed.

(** C9: a [handleFix] called from a render in which [isFixing] is true
    only shows "Fix already in progress...": no request goes to /api/fix
    and the state, so the editor code, is as before.  [isFixing] is false
    when a fix attempt ends: after a failed reply (the code is then as
    before), after a good reply that starts no analysis request, and after
    the analysis it awaited, whatever the reply to that.  So in every state the page can reach at most one [handleFix]
    is under way, and a click that sends a request to /api/fix finds none
    under way and no request to /api/fix outstanding. *)
Theorem C9_fix_guard :
  (∀ (r : State) (w : World),
     isFixing r = true →
     let w' := exec (handleFix r) w in
     eval (handleFix r) w = None
     ∧ trace w' = trace w ++ [toast_info "Fix already in progress..."]
     ∧ requestsTo "/api/fix" (trace w') = requestsTo "/api/fix" (trace w)
     ∧ state w' = state w)
  ∧ (∀ (r : State) (failure : Failure) (w : World),
       let w' := exec (handleFix_settled r (Failed failure)) w in
       eval (handleFix_settled r (Failed failure)) w = None
       ∧ isFixing (state w') = false
       ∧ code (state w') = code (state w))
  ∧ (∀ (r : State) (reply : Reply FixResponse.t) (w : World),
       let w' := exec (handleFix_settled r reply) w in
       match eval (handleFix_settled r reply) w with
       | Some _ => isFixing (state w') = isFixing (state w)
       | None => isFixing (state w') = false
       end)
  ∧ (∀ (r : State) (reply : Reply AnalyzeResponse.t) (w : World),
       isFixing (state (exec (handleFix_analyzed randomUUID r reply) w)) = false)
  ∧ (∀ p : Page,
       reachable randomUUID p →
       (fixRequestsOutstanding p ≤ fixesInFlight p)%nat
       ∧ (fixesInFlight p ≤ 1)%nat
       ∧ (isFixing (state (world p)) = false → fixesInFlight p = 0%nat))
  ∧ (∀ p p' : Page,
       reachable randomUUID p →
       step randomUUID ClickFix p = Some p' →
       requestsTo "/api/fix" (trace (world p')) ≠ requestsTo "/api/fix" (trace (world p)) →
       fixRequestsOutstanding p = 0%nat ∧ fixesInFlight p = 0%nat
       ∧ fixRequestsOutstanding p' = 1%nat).
Proof.
  split; [|split; [|split; [|split; [|split]]]].
  - intros r w Hr. unfold handleFix. rewrite Hr. run_handler.
    rewrite requestsTo_app. cbn. by rewrite app_nil_r.
  - by intros r failure w.
  - apply handleFix_settled_isFixing.
  - apply handleFix_analyzed_isFixing.
  - intros p Hp. destruct (reachable_oneFix p Hp) as [Hle Hoff].
    split; [apply awaitsFix_inFix | done].
  - intros p p' Hp Hstep Hsent.
    destruct (reachable_oneFix p Hp) as [Hle Hoff].
    pose proof (awaitsFix_inFix (pending p)) as Hout.
    cbn [step] in Hstep. rewrite run_pair in Hstep. injection Hstep as <-.
    cbn [world pending] in *.
    destruct (handleFix_cases (state (world p)) (world p))
      as [(_ & _ & Hsame)|(body & Hev & Hr & _)]; [done|].
    specialize (Hoff Hr). unfold fixRequestsOutstanding, fixesInFlight in *.
    cbn [pending]. rewrite count_app, Hev. cbn. lia.
Qed.

End FixGuard.

(** ** A session *)

Lemma run_reachable (randomUUID : nat → string) (evs : list Index.Event) (p p' : Index.Page) :
  Index.reachable randomUUID p →
  Index.run randomUUID evs p = Some p' →
  Index.reachable randomUUID p'.
Proof.
  revert p. induction evs as [|ev evs IH]; intros p Hp Hrun; cbn in Hrun.
  - by injection Hrun as <-.
  - destruct (Index.step randomUUID ev p) as [p1|] eqn:Hstep; [|done].
    apply (IH p1); [|done]. by eapply Index.reachable_step.
Qed.

Lemma C9_witness :
  match Index.run pretty session Index.initialPage with
  | Some p =>
      (Index.fixRequestsOutstanding p ≤ Index.fixesInFlight p)%nat
      ∧ (Index.fixesInFlight p ≤ 1)%nat
      ∧ (Index.isFixing (Index.state (Index.world p)) = false → Index.fixesInFlight p = 0%nat)
  | None => False
  end.
Proof.
  destruct (Index.run pretty session Index.initialPage) as [p|] eqn:Hrun.
  - apply (proj1 (proj2 (proj2 (proj2 (proj2 (C9_fix_guard pretty))))) p).
    eapply run_reachable; [apply Index.reachable_init | exact Hrun].
  - vm_compute in Hrun. discriminate.
Defined.

(** In that session exactly one request went to /api/fix, and the analysis
    that followed carried the fixed code. *)
Example session_requests :
  (p ← Index.run pretty session Index.initialPage;
   Some (Index.requestsTo "/api/fix" (Index.trace (Index.world p)),
         Index.requestsTo "/api/analyze" (Index.trace (Index.world p)),
         Index.pending p))
  = Some ([RequestBody.mk "print( 'hi' )" "python"],
          [RequestBody.mk "print('hi')" "python"],
          [Index.AwaitAnalyze
             (Index.mkState "print( 'hi' )" "python" false false None None []) true]).
Proof. vm_compute. reflexivity. Qed.

(** * Further properties of the code *)

(** ** More on strings *)

Section MoreStrings.

Lemma trimEnd_idem (s : string) : trimEnd (trimEnd s) = trimEnd s.
Proof.
  induction s as [|c s IH]; [done|]. cbn [trimEnd].
  destruct (trimEnd s) as [|d t] eqn:E.
  - destruct (isWhiteSpace c) eqn:Hc; [done|]. cbn [trimEnd]. by rewrite Hc.
  - cbn [trimEnd]. cbn [trimEnd] in IH. by rewrite IH.
Qed.

Lemma trimStart_fixed (s : string) :
  match s with "" => True | String c _ => isWhiteSpace c = false end →
  trimStart s = s.
Proof. destruct s as [|c s]; [done|]. cbn. by intros ->. Qed.

Lemma trimEnd_head (s : string) :
  match s with "" => True | String c _ => isWhiteSpace c = false end →
  match trimEnd s with "" => True | String c _ => isWhiteSpace c = false end.
Proof.
  destruct s as [|c s]; [done|]. intros Hc. cbn [trimEnd].
  destruct (trimEnd s); by rewrite ?Hc.
Qed.

(** Trimming a trimmed text changes nothing. *)
Lemma trim_idem (s : string) : trim (trim s) = trim s.
Proof.
  unfold trim. rewrite (trimStart_fixed (trimEnd (trimStart s))).
  - apply trimEnd_idem.
  - apply trimEnd_head, trimStart_head.
Qed.

Lemma lowerChar_isWhiteSpace (c : ascii) : isWhiteSpace (lowerChar c) = isWhiteSpace c.
Proof. destruct c as [[] [] [] [] [] [] [] []]; reflexivity. Qed.

Lemma trimStart_toLowerCase (s : string) :
  trimStart (toLowerCase s) = toLowerCase (trimStart s).
Proof.
  unfold toLowerCase. induction s as [|c s IH]; [done|]. cbn.
  rewrite lowerChar_isWhiteSpace. by destruct (isWhiteSpace c).
Qed.

Lemma trimEnd_toLowerCase (s : string) :
  trimEnd (toLowerCase s) = toLowerCase (trimEnd s).
Proof.
  unfold toLowerCase. induction s as [|c s IH]; [done|]. cbn [JsString.map trimEnd].
  rewrite IH, lowerChar_isWhiteSpace.
  destruct (trimEnd s); cbn [JsString.map]; [by destruct (isWhiteSpace c)|done].
Qed.

(** Trimming and lower-casing can be done in either order. *)
Lemma trim_toLowerCase (s : string) : trim (toLowerCase s) = toLowerCase (trim s).
Proof. unfold trim. by rewrite trimStart_toLowerCase, trimEnd_toLowerCase. Qed.

Lemma toLowerCase_empty (s : string) : toLowerCase s = "" ↔ s = "".
Proof. by destruct s. Qed.

End MoreStrings.

(** ** What handlers add to the trace *)

Section Emits.

Import Index.

Lemma emits_bind {A B} (Q : Effect → Prop) (m : M A) (k : A → M B) :
  emits Q m → (∀ a, emits Q (k a)) → emits Q (m ≫= k).
Proof.
  intros Hm Hk w. destruct (Hm w) as (n1 & Ht1 & HQ1).
  destruct (Hk (eval m w) (exec m w)) as (n2 & Ht2 & HQ2).
  exists (n1 ++ n2). rewrite exec_bind, Ht2, Ht1, app_assoc.
  split; [done|]. by apply Forall_app.
Qed.

Lemma emits_ret {A} (Q : Effect → Prop) (a : A) : emits Q (mret a).
Proof. intros w. exists []. by rewrite app_nil_r. Qed.

(** An action that leaves the trace alone emits nothing. *)
Lemma emits_silent {A} (Q : Effect → Prop) (m : M A) :
  preserves trace m → emits Q m.
Proof. intros Hm w. exists []. by rewrite app_nil_r, Hm. Qed.

Lemma emits_emit (Q : Effect → Prop) (e : Effect) : Q e → emits Q (emit e).
Proof. intros He w. exists [e]. split; [done|]. by apply Forall_singleton. Qed.

Lemma emits_callSetTimeout (Q : Effect → Prop) (ms : Z) :
  (∀ h, Q (setTimeout h ms)) → emits Q (callSetTimeout ms).
Proof. intros He w. eexists [_]. split; [done|]. by apply Forall_singleton. Qed.

Lemma emits_weaken {A} (Q Q' : Effect → Prop) (m : M A) :
  (∀ e, Q e → Q' e) → emits Q m → emits Q' m.
Proof.
  intros HQ Hm w. destruct (Hm w) as (new & Ht & Hnew).
  exists new. split; [done|]. by eapply Forall_impl.
Qed.

(** A handler that emits no [fetch] leaves the requests as they are. *)
Lemma emits_no_fetch {A} (m : M A) (url : string) :
  emits (λ e, ∀ u b, e ≠ fetch u b) m →
  preserves (λ w, requestsTo url (trace w)) m.
Proof.
  intros Hm w. destruct (Hm w) as (new & -> & Hnew).
  rewrite requestsTo_app. clear Hm.
  induction Hnew as [|e new He _ IH]; [by rewrite app_nil_r|].
  destruct e; try exact IH. by destruct (He url0 body).
Qed.

End Emits.

(** Splits a handler into its primitive actions; what is left to show is
    that each emitted effect is as required. *)
Ltac emits_split :=
  repeat first
    [ apply emits_ret
    | apply emits_bind; [|intros ?]
    | match goal with
      | |- Index.emits _ (if ?b then _ else _) => destruct b
      | |- Index.emits _ (match ?x with _ => _ end) => destruct x
      end
    | apply emits_silent; by intros ?
    | apply emits_emit
    | apply emits_callSetTimeout; intros ? ].

(** ** Editing *)

Section Editing.

Import Index.

(** With the test of [handleCodeChange] false, the handler is [setCode]. *)
Lemma handleCodeChange_off (r : State) (w : World) (newCode : string) :
  String.eqb (language r) "auto" && truthy (trim newCode) = false →
  exec (handleCodeChange r newCode) w = exec (setCode newCode) w.
Proof. intros Hoff. unfold handleCodeChange. by rewrite Hoff, exec_bind. Qed.

Lemma detection_off (r : State) (newCode : string) :
  language r ≠ "auto" ∨ blank newCode = true →
  String.eqb (language r) "auto" && truthy (trim newCode) = false.
Proof.
  intros [Hl|Hb].
  - apply String.eqb_neq in Hl. by rewrite Hl.
  - apply trim_blank in Hb. rewrite Hb. apply andb_false_r.
Qed.

(** X1: when the selected language of the render is not "auto", or the
    new text is empty or white space only, [handleCodeChange] does what
    [setCode] alone does: no detection, no toast. *)
Theorem X1_no_detection (r : State) (w : World) (newCode : string) :
  language r ≠ "auto" ∨ blank newCode = true →
  exec (handleCodeChange r newCode) w = exec (setCode newCode) w.
Proof.
  intros Hoff. apply detection_off in Hoff.
  unfold handleCodeChange. rewrite Hoff. by rewrite exec_bind.
Qed.

Lemma X1_witness :
  exec (handleCodeChange (mkState "" "java" false false None None []) "def f(): pass")
    initialWorld
  = exec (setCode "def f(): pass") initialWorld.
Proof. apply X1_no_detection. left. discriminate. Defined.

(** X2: the detection does not depend on the case of the letters: two
    texts with the same lower-cased form select the same language and
    show the same toast. *)
Theorem X2_detection_ignores_case (r : State) (w : World) (s1 s2 : string) :
  toLowerCase s1 = toLowerCase s2 →
  let w1 := exec (handleCodeChange r s1) w in
  let w2 := exec (handleCodeChange r s2) w in
  language (state w1) = language (state w2) ∧ trace w1 = trace w2.
Proof.
  intros Heq. cbn zeta.
  assert (toLowerCase (trim s1) = toLowerCase (trim s2)) as Hlow
    by (by rewrite <- !trim_toLowerCase, Heq).
  assert (truthy (trim s1) = truthy (trim s2)) as Htr.
  { destruct (trim s1) as [|c1 t1], (trim s2) as [|c2 t2]; done. }
  unfold handleCodeChange. rewrite !exec_bind, Hlow, Htr.
  destruct (String.eqb (language r) "auto" && truthy (trim s2)); [|done].
  by destruct (truthy _ && negb _).
Qed.

Lemma X2_witness :
  language (state (exec (handleCodeChange initialState "PUBLIC CLASS A {}") initialWorld))
  = language (state (exec (handleCodeChange initialState "public class a {}") initialWorld)).
Proof.
  refine (proj1 (X2_detection_ignores_case initialState initialWorld
                   "PUBLIC CLASS A {}" "public class a {}" _)).
  vm_compute. reflexivity.
Defined.

Lemma handleCodeChange_emits (r : State) (newCode : string) :
  emits (λ e, ∃ m, e = toast_info m) (handleCodeChange r newCode).
Proof. unfold handleCodeChange. emits_split. by eexists. Qed.

(** X3: [handleCodeChange] always puts the new text in the editor; it
    sends no request, touches neither the flags, the result, the scroll
    target, the history nor the timer reference, and the language it
    leaves selected is the one that was selected or one of the six names
    the detection knows. *)
Theorem X3_edit_frame (r : State) (w : World) (newCode : string) :
  let w' := exec (handleCodeChange r newCode) w in
  code (state w') = newCode
  ∧ (isAnalyzing (state w'), isFixing (state w'), analysisResult (state w'),
     scrollToLine (state w'), history (state w'), fixTimeoutRef w')
    = (isAnalyzing (state w), isFixing (state w), analysisResult (state w),
       scrollToLine (state w), history (state w), fixTimeoutRef w)
  ∧ (∀ url, requestsTo url (trace w') = requestsTo url (trace w))
  ∧ language (state w')
    ∈ [language (state w); "python"; "java"; "cpp"; "c"; "typescript"; "javascript"].
Proof.
  cbn zeta. split; [|split; [|split]].
  - unfold handleCodeChange. rewrite exec_bind.
    destruct (_ && _); [|done]. by destruct (_ && _).
  - assert (preserves (λ w, (isAnalyzing (state w), isFixing (state w),
                             analysisResult (state w), scrollToLine (state w),
                             history (state w), fixTimeoutRef w))
              (handleCodeChange r newCode)) as Hf
      by (unfold handleCodeChange; frame).
    apply Hf.
  - intros url. apply (emits_no_fetch (handleCodeChange r newCode) url).
    eapply emits_weaken; [|apply handleCodeChange_emits].
    by intros e [m ->] u b.
  - destruct (decide (language r = "auto")) as [Hr|Hr].
    + destruct (blank newCode) eqn:Hb.
      * rewrite handleCodeChange_off by (apply detection_off; by right).
        cbn. rewrite elem_of_cons. by left.
      * assert (trim newCode ≠ "") as Ht by (intros Ht%trim_blank; congruence).
        rewrite handleCodeChange_language by done.
        destruct (spec_detect _) as [[]|]; cbn;
          rewrite !elem_of_cons; tauto.
    + rewrite handleCodeChange_off by (apply detection_off; by left).
      cbn. rewrite elem_of_cons. by left.
Qed.

End Editing.

(** ** The outcome of an analysis *)

Section AnalysisOutcome.

Import Index.

Variable randomUUID : nat → string.

Lemma handleAnalyze_settled_emits (r : State) (reply : Reply AnalyzeResponse.t) :
  emits (λ e, (∃ m, e = toast_success m) ∨ (∃ m, e = toast_error m)
              ∨ (∃ x, e = console_error x))
    (handleAnalyze_settled randomUUID r reply).
Proof.
  unfold handleAnalyze_settled. emits_split; eauto.
Qed.

(** X4: a good reply to an analysis becomes the [analysisResult] and ends
    the spinner.  Its language is adopted exactly when the render the
    analysis was started from had "auto" selected and the reply names
    another language, whatever is selected by now; the editor code, the
    fix flag, the scroll target and the timer reference are left alone,
    no request is sent, and the last toast is the closing message. *)
Theorem X4_analysis_success (r : State) (data : AnalyzeResponse.t) (w : World) :
  let w' := exec (handleAnalyze_settled randomUUID r (OkJson data)) w in
  analysisResult (state w') = Some (Fresh data)
  ∧ isAnalyzing (state w') = false
  ∧ (language r = "auto" → AnalyzeResponse.language data ≠ "auto" →
     language (state w') = AnalyzeResponse.language data)
  ∧ (language r ≠ "auto" ∨ AnalyzeResponse.language data = "auto" →
     language (state w') = language (state w))
  ∧ (code (state w'), isFixing (state w'), scrollToLine (state w'), fixTimeoutRef w')
    = (code (state w), isFixing (state w), scrollToLine (state w), fixTimeoutRef w)
  ∧ (∀ url, requestsTo url (trace w') = requestsTo url (trace w))
  ∧ last (trace w') = Some (toast_success (completeMessage data)).
Proof.
  cbn zeta.
  destruct (handleAnalyze_settled_ok randomUUID r data w) as (_ & _ & Hres & Han).
  split; [done|]. split; [done|]. split; [|split; [|split; [|split]]].
  - intros Hr Hd. apply String.eqb_neq in Hd.
    unfold handleAnalyze_settled. rewrite Hr, Hd. by run_handler.
  - intros Hoff. unfold handleAnalyze_settled.
    assert (String.eqb (language r) "auto"
            && negb (String.eqb (AnalyzeResponse.language data) "auto") = false) as ->.
    { destruct Hoff as [Hr|Hd].
      - apply String.eqb_neq in Hr. by rewrite Hr.
      - rewrite Hd. apply andb_false_r. }
    by run_handler.
  - unfold handleAnalyze_settled. by destruct (_ && _).
  - intros url.
    apply (emits_no_fetch (handleAnalyze_settled randomUUID r (OkJson data)) url).
    eapply emits_weaken; [|apply handleAnalyze_settled_emits].
    intros e [[m ->]|[[m ->]|[x ->]]] u b; discriminate.
  - unfold handleAnalyze_settled. destruct (_ && _); run_handler; apply last_snoc.
Qed.

End AnalysisOutcome.

(** ** More on fixes *)

Section MoreFixFacts.

Import Index.

(** The first part of [handleFix] when it gets past both guards. *)
Lemma handleFix_sends (r : State) (w : World) :
  isFixing r = false →
  trim (code r) ≠ "" →
  handleFix r w
  = (Some (RequestBody.mk (trim (code r)) (language r)),
     mkWorld (mkState (code (state w)) (language (state w)) (isAnalyzing (state w)) true
                (analysisResult (state w)) (scrollToLine (state w)) (history (state w)))
       (fixTimeoutRef w)
       (trace w ++ (if fixTimeoutRef w is Some h then [clearTimeout h] else [])
                ++ [toast_info "Applying AI fixes...";
                    fetch "/api/fix" (RequestBody.mk (trim (code r)) (language r))])
       (uuidCalls w) (timerCalls w)).
Proof.
  intros Hr Ht. apply truthy_spec in Ht. unfold handleFix.
  rewrite Hr, orEmpty_id, Ht. cbn [negb]. run_handler.
  destruct (fixTimeoutRef w) as [h|] eqn:Hh; run_handler;
    rewrite ?Hh, <- ?app_assoc; cbn [app]; by rewrite ?app_nil_r.
Qed.

Lemma handleFix_blank (r : State) (w : World) :
  isFixing r = false →
  trim (code r) = "" →
  exec (handleFix r) w = exec (emit (toast_error "Add some code first.")) w.
Proof. intros Hr Ht. unfold handleFix. by rewrite Hr, orEmpty_id, Ht. Qed.

(** X5: [handleFix] called with no fix in progress and an editor text
    that is empty or white space only shows "Add some code first." and
    does nothing else: no request goes out and [isFixing] is not set. *)
Theorem X5_fix_needs_code (r : State) (w : World) :
  isFixing r = false →
  blank (code r) = true →
  handleFix r w = (None, exec (emit (toast_error "Add some code first.")) w).
Proof.
  intros Hr Hb. apply trim_blank in Hb. unfold handleFix.
  by rewrite Hr, orEmpty_id, Hb.
Qed.

Lemma X5_witness :
  handleFix (mkState "   " "auto" false false None None []) initialWorld
  = (None, exec (emit (toast_error "Add some code first.")) initialWorld).
Proof. apply X5_fix_needs_code; reflexivity. Defined.

(** X6: [handleFix] called with no fix in progress and a text that is not
    blank sets [isFixing] and sends one request to /api/fix with the
    trimmed text and the language of the render; the timer whose handle
    is kept in [fixTimeoutRef] is cleared first, when there is one.
    Nothing else of the state changes and nothing goes to
    /api/analyze. *)
Theorem X6_fix_request (r : State) (w : World) :
  isFixing r = false →
  blank (code r) = false →
  let w' := exec (handleFix r) w in
  let body := RequestBody.mk (trim (code r)) (language r) in
  eval (handleFix r) w = Some body
  ∧ isFixing (state w') = true
  ∧ (code (state w'), language (state w'), isAnalyzing (state w'),
     analysisResult (state w'), scrollToLine (state w'), history (state w'),
     fixTimeoutRef w')
    = (code (state w), language (state w), isAnalyzing (state w),
       analysisResult (state w), scrollToLine (state w), history (state w),
       fixTimeoutRef w)
  ∧ trace w' = trace w
               ++ (if fixTimeoutRef w is Some h then [clearTimeout h] else [])
               ++ [toast_info "Applying AI fixes..."; fetch "/api/fix" body]
  ∧ requestsTo "/api/fix" (trace w') = requestsTo "/api/fix" (trace w) ++ [body]
  ∧ requestsTo "/api/analyze" (trace w') = requestsTo "/api/analyze" (trace w).
Proof.
  intros Hr Hb. assert (trim (code r) ≠ "") as Ht by (intros Ht%trim_blank; congruence).
  cbn zeta. unfold exec, eval. rewrite handleFix_sends by done. cbn [fst snd].
  run_handler. repeat split; try done.
  - rewrite !requestsTo_app. destruct (fixTimeoutRef w); cbn; by rewrite ?app_nil_r.
  - rewrite !requestsTo_app. destruct (fixTimeoutRef w); cbn; by rewrite ?app_nil_r.
Qed.

Lemma X6_witness :
  eval (handleFix (mkState "  x = 1  " "python" false false None None []))
    (mkWorld initialState (Some 7%nat) [] 0 7)
  = Some (RequestBody.mk (trim "  x = 1  ") "python").
Proof.
  refine (proj1 (X6_fix_request (mkState "  x = 1  " "python" false false None None [])
                   (mkWorld initialState (Some 7%nat) [] 0 7) _ _)); reflexivity.
Defined.

(** X7: when the request to /api/fix fails, [handleFix] logs the error,
    shows "Failed to apply fixes", clears [isFixing], arms the one-second
    timer and keeps its handle; the editor code, the language, the
    result and the history are as before and no analysis is started. *)
Theorem X7_fix_failure (r : State) (failure : Failure) (w : World) :
  let w' := exec (handleFix_settled r (Failed failure)) w in
  eval (handleFix_settled r (Failed failure)) w = None
  ∧ state w' = mkState (code (state w)) (language (state w)) (isAnalyzing (state w)) false
                 (analysisResult (state w)) (scrollToLine (state w)) (history (state w))
  ∧ trace w' = trace w ++ [console_error (thrown "Fix" failure);
                           toast_error "Failed to apply fixes";
                           setTimeout (S (timerCalls w)) 1000]
  ∧ fixTimeoutRef w' = Some (S (timerCalls w))
  ∧ requestsTo "/api/analyze" (trace w') = requestsTo "/api/analyze" (trace w).
Proof.
  cbn zeta. unfold handleFix_settled, handleFix_finally. run_handler.
  repeat split; rewrite <- ?app_assoc; try done.
  rewrite requestsTo_app. cbn. by rewrite app_nil_r.
Qed.

(** X8: of a good reply to /api/fix only [fixedCode] reaches the state and
    the requests: the [language] and [source] it names and its list of
    changes make no difference to the state, to the timer reference, to
    whether an analysis is started, nor to any request. *)
Theorem X8_fix_reply_language_unused (r : State) (fx1 fx2 : FixResponse.t) (w : World) :
  FixResponse.fixedCode fx1 = FixResponse.fixedCode fx2 →
  let w1 := exec (handleFix_settled r (OkJson fx1)) w in
  let w2 := exec (handleFix_settled r (OkJson fx2)) w in
  state w1 = state w2
  ∧ fixTimeoutRef w1 = fixTimeoutRef w2
  ∧ eval (handleFix_settled r (OkJson fx1)) w = eval (handleFix_settled r (OkJson fx2)) w
  ∧ (∀ url, requestsTo url (trace w1) = requestsTo url (trace w2)).
Proof.
  intros Hc. cbn zeta. unfold exec, eval. rewrite !handleFix_settled_ok. cbn zeta.
  rewrite <- Hc. set (c := FixResponse.fixedCode fx1).
  destruct (blank c) eqn:Hb.
  - assert (trim c = "") as Ht by by apply trim_blank.
    rewrite !handleAnalyze_blank by done. cbn [fst snd].
    unfold handleFix_finally. run_handler. repeat split; try done.
    intros url. rewrite !requestsTo_app, !requestsTo_fixMessage. done.
  - assert (trim c ≠ "") as Ht by (intros Ht%trim_blank; congruence).
    rewrite !handleAnalyze_sends by done. cbn [fst snd]. run_handler.
    repeat split; try done.
    intros url. rewrite !requestsTo_app, !requestsTo_fixMessage. done.
Qed.

Lemma X8_witness :
  state (exec (handleFix_settled initialState
                 (OkJson (FixResponse.mk "x = 1" ["Renamed"] "gemini" "python"))) initialWorld)
  = state (exec (handleFix_settled initialState
                   (OkJson (FixResponse.mk "x = 1" [] "local" "java"))) initialWorld).
Proof.
  refine (proj1 (X8_fix_reply_language_unused initialState
                   (FixResponse.mk "x = 1" ["Renamed"] "gemini" "python")
                   (FixResponse.mk "x = 1" [] "local" "java") initialWorld _)).
  reflexivity.
Defined.

End MoreFixFacts.

(** ** What every step of the page does *)

Section StepEffects.

Import Index.

Variable randomUUID : nat → string.

Lemma advances_refl ref fixing (w : World) : advances ref fixing w w.
Proof. exists []. rewrite app_nil_r. split; [done|]. split; [constructor | by left]. Qed.

Lemma advances_trans ref fixing (w1 w2 w3 : World) :
  advances ref fixing w1 w2 → advances ref fixing w2 w3 → advances ref fixing w1 w3.
Proof.
  intros (n1 & Ht1 & HQ1 & Hr1) (n2 & Ht2 & HQ2 & Hr2).
  exists (n1 ++ n2). rewrite Ht2, Ht1, app_assoc. split; [done|].
  split; [by apply Forall_app|].
  destruct Hr2 as [Hr2|(h & Hh & Hin)].
  - rewrite Hr2. destruct Hr1 as [Hr1|(h & Hh & Hin)]; [by left|].
    right. exists h. rewrite elem_of_app. auto.
  - right. exists h. rewrite elem_of_app. auto.
Qed.

(** A handler whose effects are allowed everywhere and that leaves the
    timer reference alone. *)
Lemma advances_ordinary {A} ref fixing (m : M A) (w : World) :
  emits (allowedEffect None false) m →
  preserves fixTimeoutRef m →
  advances ref fixing w (exec m w).
Proof.
  intros Hm Hf. destruct (Hm w) as (new & Ht & Hnew).
  exists new. split; [done|]. split; [|left; apply Hf].
  eapply Forall_impl; [done|]. intros e (? & Hc & Hg).
  split; [done|]. split; [intros h ->; by specialize (Hc h eq_refl) | intros ->; by specialize (Hg eq_refl)].
Qed.

Lemma advances_finally ref fixing (w : World) :
  advances ref fixing w (exec handleFix_finally w).
Proof.
  exists [setTimeout (S (timerCalls w)) 1000]. split; [done|]. split.
  - apply Forall_singleton. by repeat split.
  - right. exists (S (timerCalls w)). split; [done|]. by apply list_elem_of_singleton.
Qed.

Lemma handleFix_settled_split (r : State) (reply : Reply FixResponse.t) (w : World) :
  handleFix_settled r reply w
  = match eval (handleFix_settled_body r reply) w with
    | Some body => (Some body, exec (handleFix_settled_body r reply) w)
    | None => (None, exec handleFix_finally (exec (handleFix_settled_body r reply) w))
    end.
Proof.
  destruct reply as [failure|fx]; [reflexivity|].
  unfold handleFix_settled, handleFix_settled_body, exec, eval.
  cbv [mbind mret M_bind M_ret]. cbn [setCode modify emit snd fst].
  by destruct (handleAnalyze _ _ _) as [[body|] w2].
Qed.

Lemma allowed_toast_error ref fixing m : allowedEffect ref fixing (toast_error m).
Proof. by repeat split. Qed.

Lemma allowed_toast_success ref fixing m : allowedEffect ref fixing (toast_success m).
Proof. by repeat split. Qed.

Lemma allowed_console_error ref fixing x : allowedEffect ref fixing (console_error x).
Proof. by repeat split. Qed.

Lemma allowed_report ref fixing (html : bool) body :
  allowedEffect ref fixing (fetch (if html then "/api/report/html" else "/api/report") body).
Proof.
  split; [|by split]. split.
  - unfold endpoints. destruct html; rewrite !elem_of_cons; tauto.
  - by destruct html; intros [?|?].
Qed.

Lemma handleAnalyze_emits (r : State) (o : option string) :
  emits (allowedEffect None false) (handleAnalyze r o).
Proof.
  intros w. destruct (blank (default (code r) o)) eqn:Hb.
  - apply trim_blank in Hb. unfold exec. rewrite handleAnalyze_blank by done.
    eexists. split; [done|]. apply Forall_singleton, allowed_toast_error.
  - assert (trim (default (code r) o) ≠ "") as Ht by (intros Ht%trim_blank; congruence).
    unfold exec. rewrite handleAnalyze_sends by done. cbn [snd trace].
    eexists. split; [done|]. apply Forall_app. split; apply Forall_singleton.
    + by repeat split.
    + split; [|by split]. split.
      * unfold endpoints. rewrite !elem_of_cons. tauto.
      * intros _. cbn. split; [done | apply trim_idem].
Qed.

Lemma handleCodeChange_allowed (r : State) (c : string) :
  emits (allowedEffect None false) (handleCodeChange r c).
Proof.
  unfold handleCodeChange. emits_split.
  split; [done|]. split; [done|]. intros [=].
Qed.

Lemma handleFix_settled_body_emits (r : State) (reply : Reply FixResponse.t) :
  emits (allowedEffect None false) (handleFix_settled_body r reply).
Proof.
  unfold handleFix_settled_body. emits_split;
    try apply allowed_console_error; try apply allowed_toast_error.
  - unfold fixMessage. destruct (hasChanges _); by repeat split.
  - apply handleAnalyze_emits.
Qed.

Lemma handleAnalyze_settled_allowed (r : State) (reply : Reply AnalyzeResponse.t) :
  emits (allowedEffect None false) (handleAnalyze_settled randomUUID r reply).
Proof.
  eapply emits_weaken; [|apply handleAnalyze_settled_emits].
  intros e [[m ->]|[[m ->]|[x ->]]]; by repeat split.
Qed.

Lemma handleDownload_settled_allowed (html : bool) (reply : Reply ReportResponse.t) :
  emits (allowedEffect None false) (handleDownload_settled html reply).
Proof. unfold handleDownload_settled. emits_split; by repeat split. Qed.

(** The effects of a call of [handleFix]. *)
Lemma handleFix_advances (r : State) (w : World) :
  advances (fixTimeoutRef w) (isFixing r) w (exec (handleFix r) w).
Proof.
  destruct (isFixing r) eqn:Hr.
  - unfold handleFix. rewrite Hr. eexists [_]. split; [done|].
    split; [|by left]. apply Forall_singleton. by repeat split.
  - destruct (blank (code r)) eqn:Hb.
    + apply trim_blank in Hb. rewrite handleFix_blank by done. eexists [_]. split; [done|].
      split; [|by left]. apply Forall_singleton, allowed_toast_error.
    + assert (trim (code r) ≠ "") as Ht by (intros Ht%trim_blank; congruence).
      unfold exec. rewrite handleFix_sends by done. cbn [snd trace fixTimeoutRef].
      eexists. split; [done|]. split; [|by left].
      apply Forall_app. split.
      * destruct (fixTimeoutRef w) as [h|]; [|constructor].
        apply Forall_singleton. split; [done|]. split; [by intros ? [= ->] | done].
      * apply Forall_cons. split; [by repeat split|]. apply Forall_singleton.
        split; [|by split]. split.
        -- unfold endpoints. rewrite !elem_of_cons. tauto.
        -- intros _. cbn. split; [done | apply trim_idem].
Qed.

(** What a step adds to the trace and does to the timer reference: only a
    click on the fix button can clear a timer or show the toast of the
    guard. *)
Lemma step_advances (ev : Event) (p p' : Page) :
  step randomUUID ev p = Some p' →
  advances (if ev is ClickFix then fixTimeoutRef (world p) else None)
           (if ev is ClickFix then isFixing (state (world p)) else false)
           (world p) (world p').
Proof.
  intros Hstep. destruct ev; cbn [step] in Hstep.
  - injection Hstep as <-. apply advances_ordinary;
      [apply handleCodeChange_allowed | unfold handleCodeChange; frame].
  - injection Hstep as <-. apply advances_ordinary; [emits_split | frame].
  - injection Hstep as <-. apply advances_ordinary;
      [unfold handleReset; emits_split; by repeat split | unfold handleReset; frame].
  - rewrite run_pair in Hstep. injection Hstep as <-. apply advances_ordinary;
      [apply handleAnalyze_emits | unfold handleAnalyze; frame].
  - rewrite run_pair in Hstep. injection Hstep as <-. apply handleFix_advances.
  - injection Hstep as <-. apply advances_ordinary;
      [unfold handleDownload; emits_split; apply allowed_report
      | unfold handleDownload; frame].
  - injection Hstep as <-. apply advances_ordinary; [emits_split | frame].
  - destruct (history (state (world p)) !! n); [|done]. injection Hstep as <-.
    apply advances_ordinary; [unfold loadHistory; emits_split | unfold loadHistory; frame].
  - destruct (pending p !! n) as [[r0 [|]| |]|]; try done; injection Hstep as <-;
      cbn [world].
    + unfold handleFix_analyzed. rewrite exec_bind.
      eapply advances_trans; [|apply advances_finally].
      apply advances_ordinary;
        [apply handleAnalyze_settled_allowed | unfold handleAnalyze_settled; frame].
    + apply advances_ordinary;
        [apply handleAnalyze_settled_allowed | unfold handleAnalyze_settled; frame].
  - destruct (pending p !! n) as [[| r0 |]|]; try done.
    rewrite handleFix_settled_split in Hstep.
    assert (advances None false (world p) (exec (handleFix_settled_body r0 reply) (world p)))
      as Hbody.
    { apply advances_ordinary; [apply handleFix_settled_body_emits|].
      unfold handleFix_settled_body, handleAnalyze. frame. }
    destruct (eval _ _); injection Hstep as <-; cbn [world]; [done|].
    eapply advances_trans; [done | apply advances_finally].
  - destruct (pending p !! n) as [[| |html]|]; try done. injection Hstep as <-.
    apply advances_ordinary;
      [apply handleDownload_settled_allowed | unfold handleDownload_settled; frame].
Qed.

End StepEffects.

(** ** Invariants of the page *)

Section PageInvariants.

Import Index.

Variable randomUUID : nat → string.

Lemma reachableUI_reachable (p : Page) :
  reachableUI randomUUID p → reachable randomUUID p.
Proof.
  induction 1 as [|p ev p' _ IH _ Hstep]; [constructor|].
  by eapply reachable_step.
Qed.

Lemma timersWf_advances ref fixing (w w' : World) :
  ref = None ∨ ref = fixTimeoutRef w →
  advances ref fixing w w' → timersWf w → timersWf w'.
Proof.
  intros Href (new & Ht & Hnew & Hr) [Hkept Hcleared].
  rewrite Forall_forall in Hnew. unfold timersWf. rewrite Ht. split.
  - intros h Hh. rewrite elem_of_app. destruct Hr as [Hr|(h' & Hh' & Hin)].
    + left. apply Hkept. congruence.
    + right. congruence.
  - intros h. rewrite !elem_of_app. intros [Hin|Hin]; [left; by apply Hcleared|].
    destruct (Hnew _ Hin) as (_ & Hc & _). specialize (Hc h eq_refl).
    left. apply Hkept. destruct Href; congruence.
Qed.

(** X9: in every state the page can reach, the handle kept in
    [fixTimeoutRef] is one that [setTimeout] returned for a delay of one
    second, and so is every handle that was given to [clearTimeout]. *)
Theorem X9_timers (p : Page) :
  reachable randomUUID p →
  (∀ h, fixTimeoutRef (world p) = Some h → setTimeout h 1000 ∈ trace (world p))
  ∧ (∀ h, clearTimeout h ∈ trace (world p) → setTimeout h 1000 ∈ trace (world p)).
Proof.
  induction 1 as [|p ev p' _ IH Hstep].
  - split; [done|]. intros h Hh. by apply elem_of_nil in Hh.
  - apply step_advances in Hstep.
    eapply (timersWf_advances _ _ (world p)); [|exact Hstep|exact IH].
    destruct ev; auto.
Qed.

(** X11: every request the page ever sent went to one of the four
    endpoints of the backend, and every request to /api/analyze or
    /api/fix carried code that is not blank and has no white space at
    its ends. *)
Theorem X11_requests (p : Page) :
  reachable randomUUID p →
  ∀ url body, fetch url body ∈ trace (world p) →
    url ∈ endpoints
    ∧ (url = "/api/analyze" ∨ url = "/api/fix" →
       blank (RequestBody.code body) = false
       ∧ trim (RequestBody.code body) = RequestBody.code body).
Proof.
  intros Hp.
  assert (Forall wellFormedRequest (trace (world p))) as Hall.
  { induction Hp as [|p ev p' _ IH Hstep]; [constructor|].
    destruct (step_advances randomUUID ev p p' Hstep) as (new & -> & Hnew & _).
    apply Forall_app. split; [done|].
    eapply Forall_impl; [done|]. by intros e [? _]. }
  intros url body Hin. rewrite Forall_forall in Hall.
  destruct (Hall _ Hin) as [Hurl Hcode]. split; [done|].
  intros Hu. destruct (Hcode Hu) as [Hne Htrim]. split; [|done].
  destruct (blank _) eqn:Hb; [|done]. apply trim_blank in Hb. congruence.
Qed.

(** X19: through the rendered controls the guard at the head of
    [handleFix] is never taken: the fix button is disabled while
    [isFixing], so the toast "Fix already in progress..." is never
    shown. *)
Theorem X19_guard_unreached (p : Page) :
  reachableUI randomUUID p →
  toast_info "Fix already in progress..." ∉ trace (world p).
Proof.
  induction 1 as [|p ev p' _ IH Hen Hstep]; [by intros ?%elem_of_nil|].
  destruct (step_advances randomUUID ev p p' Hstep) as (new & -> & Hnew & _).
  rewrite elem_of_app. intros [Hin|Hin]; [done|].
  rewrite Forall_forall in Hnew. destruct (Hnew _ Hin) as (_ & _ & Hg).
  specialize (Hg eq_refl). destruct ev; try done.
  cbn in Hen. unfold fixDisabled in Hen. rewrite Hg in Hen. done.
Qed.

End PageInvariants.

Lemma X9_witness :
  match Index.run pretty
          (session ++ [Index.AnalyzeReply 0 (OkJson sampleReply); Index.ClickFix])
          Index.initialPage with
  | Some p =>
      (∀ h, Index.fixTimeoutRef (Index.world p) = Some h
            → Index.setTimeout h 1000 ∈ Index.trace (Index.world p))
      ∧ (∀ h, Index.clearTimeout h ∈ Index.trace (Index.world p)
              → Index.setTimeout h 1000 ∈ Index.trace (Index.world p))
  | None => False
  end.
Proof.
  destruct (Index.run pretty _ Index.initialPage) as [p|] eqn:Hrun.
  - apply (X9_timers pretty p).
    eapply run_reachable; [apply Index.reachable_init | exact Hrun].
  - vm_compute in Hrun. discriminate.
Defined.

Lemma X11_witness :
  match Index.run pretty session Index.initialPage with
  | Some p =>
      ∀ url body, Index.fetch url body ∈ Index.trace (Index.world p) →
        url ∈ Index.endpoints
        ∧ (url = "/api/analyze" ∨ url = "/api/fix" →
           blank (RequestBody.code body) = false
           ∧ trim (RequestBody.code body) = RequestBody.code body)
  | None => False
  end.
Proof.
  destruct (Index.run pretty session Index.initialPage) as [p|] eqn:Hrun.
  - apply (X11_requests pretty p).
    eapply run_reachable; [apply Index.reachable_init | exact Hrun].
  - vm_compute in Hrun. discriminate.
Defined.

Lemma runUI_reachableUI (randomUUID : nat → string) (evs : list Index.Event)
    (p p' : Index.Page) :
  Index.reachableUI randomUUID p →
  Index.runUI randomUUID evs p = Some p' →
  Index.reachableUI randomUUID p'.
Proof.
  revert p. induction evs as [|ev evs IH]; intros p Hp Hrun; cbn in Hrun.
  - by injection Hrun as <-.
  - destruct (Index.enabled ev p) eqn:Hen; [|done].
    destruct (Index.step randomUUID ev p) as [p1|] eqn:Hstep; [|done].
    apply (IH p1); [|done]. by eapply Index.reachableUI_step.
Qed.

Lemma X19_witness :
  match Index.runUI pretty sessionUI Index.initialPage with
  | Some p => Index.toast_info "Fix already in progress..." ∉ Index.trace (Index.world p)
  | None => False
  end.
Proof.
  destruct (Index.runUI pretty sessionUI Index.initialPage) as [p|] eqn:Hrun.
  - apply (X19_guard_unreached pretty p).
    eapply runUI_reachableUI; [apply Index.reachableUI_init | exact Hrun].
  - vm_compute in Hrun. discriminate.
Defined.

(** ** The progress flags and the history *)

Section Flags.

Import Index.

Variable randomUUID : nat → string.

Lemma handleAnalyze_idle (r : State) (o : option string) (w : World) :
  eval (handleAnalyze r o) w = None → state (exec (handleAnalyze r o) w) = state w.
Proof.
  unfold eval, exec. destruct (blank (default (code r) o)) eqn:Hb.
  - apply trim_blank in Hb. by rewrite handleAnalyze_blank.
  - assert (trim (default (code r) o) ≠ "") as Ht by (intros Ht%trim_blank; congruence).
    by rewrite handleAnalyze_sends.
Qed.

Lemma handleFix_isAnalyzing (r : State) :
  preserves (λ w, isAnalyzing (state w)) (handleFix r).
Proof. unfold handleFix. frame. Qed.

Lemma handleFix_analyzed_isAnalyzing (r : State) (reply : Reply AnalyzeResponse.t) (w : World) :
  isAnalyzing (state (exec (handleFix_analyzed randomUUID r reply) w)) = false.
Proof.
  unfold handleFix_analyzed. rewrite exec_bind.
  unfold handleAnalyze_settled. by rewrite exec_bind.
Qed.

Lemma handleAnalyze_settled_isAnalyzing (r : State) (reply : Reply AnalyzeResponse.t)
    (w : World) :
  isAnalyzing (state (exec (handleAnalyze_settled randomUUID r reply) w)) = false.
Proof. unfold handleAnalyze_settled. by rewrite exec_bind. Qed.

(** A second part of [handleFix] that starts no analysis leaves
    [isAnalyzing] as it is. *)
Lemma handleFix_settled_isAnalyzing (r : State) (reply : Reply FixResponse.t) (w : World) :
  eval (handleFix_settled r reply) w = None →
  isAnalyzing (state (exec (handleFix_settled r reply) w)) = isAnalyzing (state w).
Proof.
  destruct reply as [failure|fx]; [done|].
  unfold eval, exec. rewrite handleFix_settled_ok. cbn zeta.
  set (w1 := exec _ w).
  pose proof (handleAnalyze_idle r (Some (FixResponse.fixedCode fx)) w1) as Hidle.
  unfold eval, exec in Hidle.
  destruct (handleAnalyze _ _ w1) as [[body|] w2]; cbn [fst snd] in *; [done|].
  intros _. transitivity (isAnalyzing (state w2)); [reflexivity|]. by rewrite Hidle.
Qed.

Lemma flagsWf_step (ev : Event) (p p' : Page) :
  step randomUUID ev p = Some p' → flagsWf p → flagsWf p'.
Proof.
  unfold flagsWf, analysesOutstanding, fixesInFlight. intros Hstep [Han Hfix].
  destruct ev; cbn [step] in Hstep.
  - injection Hstep as <-. cbn [pending world].
    assert (preserves (λ w, (isAnalyzing (state w), isFixing (state w)))
              (handleCodeChange (state (world p)) newCode)) as Hf
      by (unfold handleCodeChange; frame).
    specialize (Hf (world p)). cbn beta in Hf. injection Hf as -> ->. done.
  - by injection Hstep as <-.
  - by injection Hstep as <-.
  - rewrite run_pair in Hstep. injection Hstep as <-. cbn [pending world].
    rewrite (handleAnalyze_isFixing (state (world p)) None (world p)), !count_app.
    pose proof (handleAnalyze_idle (state (world p)) None (world p)) as Hidle.
    destruct (eval _ _); cbn.
    + split; [intros _; lia | intros H; specialize (Hfix H); lia].
    + rewrite Hidle by done. split; intros H; [specialize (Han H)|specialize (Hfix H)]; lia.
  - rewrite run_pair in Hstep. injection Hstep as <-. cbn [pending world].
    rewrite (handleFix_isAnalyzing (state (world p)) (world p)), !count_app.
    destruct (handleFix_cases (state (world p)) (world p))
      as [(-> & -> & _)|(body & -> & _ & Hset & _)]; cbn.
    + split; intros H; [specialize (Han H)|specialize (Hfix H)]; lia.
    + split; [intros H; specialize (Han H); lia | intros _; lia].
  - injection Hstep as <-. cbn [pending world]. rewrite !count_app. cbn.
    split; intros H; [specialize (Han H)|specialize (Hfix H)]; lia.
  - by injection Hstep as <-.
  - destruct (history (state (world p)) !! n); [|done]. by injection Hstep as <-.
  - destruct (pending p !! n) as [[r0 inside| |]|] eqn:Hn; try done.
    injection Hstep as <-. cbn [pending world].
    pose proof (count_delete inFix _ _ _ Hn) as Hc. cbn [inFix] in Hc.
    destruct inside.
    + rewrite handleFix_analyzed_isAnalyzing, handleFix_analyzed_isFixing. done.
    + rewrite handleAnalyze_settled_isAnalyzing,
        (handleAnalyze_settled_isFixing randomUUID r0 reply (world p)).
      split; [done|]. intros H. specialize (Hfix H). lia.
  - destruct (pending p !! n) as [[| r0 |]|] eqn:Hn; try done.
    rewrite run_pair in Hstep. injection Hstep as <-. cbn [pending world].
    pose proof (count_delete awaitsAnalyze _ _ _ Hn) as Hc. cbn [awaitsAnalyze] in Hc.
    pose proof (handleFix_settled_isFixing r0 reply (world p)) as Hs.
    pose proof (handleFix_settled_isAnalyzing r0 reply (world p)) as Ha.
    cbn zeta in Hs. rewrite !count_app.
    destruct (eval (handleFix_settled r0 reply) (world p)); cbn.
    + split; intros _; lia.
    + rewrite Hs, Ha by done. split; [|done]. intros H. specialize (Han H). lia.
  - destruct (pending p !! n) as [[| |html]|] eqn:Hn; try done.
    injection Hstep as <-. cbn [pending world].
    pose proof (count_delete inFix _ _ _ Hn) as Hc. cbn [inFix] in Hc.
    pose proof (count_delete awaitsAnalyze _ _ _ Hn) as Hc'. cbn [awaitsAnalyze] in Hc'.
    assert (preserves (λ w, (isAnalyzing (state w), isFixing (state w)))
              (handleDownload_settled html reply)) as Hf
      by (unfold handleDownload_settled; frame).
    specialize (Hf (world p)). cbn beta in Hf. injection Hf as -> ->.
    split; intros H; [specialize (Han H)|specialize (Hfix H)]; lia.
Qed.

(** X10: the progress flags never hang: in every state the page can
    reach, [isAnalyzing] is set only while a request to /api/analyze is
    outstanding, and [isFixing] is set exactly while one [handleFix] is
    under way. *)
Theorem X10_flags (p : Page) :
  reachable randomUUID p →
  (isAnalyzing (state (world p)) = true → (1 ≤ analysesOutstanding p)%nat)
  ∧ (isFixing (state (world p)) = true ↔ fixesInFlight p = 1%nat).
Proof.
  intros Hp.
  assert (flagsWf p) as [Han Hfix].
  { induction Hp as [|p ev p' _ IH Hstep]; [by split|]. by eapply flagsWf_step. }
  destruct (reachable_oneFix randomUUID p Hp) as [Hle Hoff].
  split; [done|]. split.
  - intros H. specialize (Hfix H). lia.
  - intros H. destruct (isFixing (state (world p))); [done|].
    specialize (Hoff eq_refl). lia.
Qed.

(** X12: the history and the count of UUIDs drawn change at a good reply
    to an analysis and at no other event. *)
Theorem X12_history_frame (ev : Event) (p p' : Page) :
  step randomUUID ev p = Some p' →
  (∀ n data, ev ≠ AnalyzeReply n (OkJson data)) →
  history (state (world p')) = history (state (world p))
  ∧ uuidCalls (world p') = uuidCalls (world p).
Proof.
  intros Hstep Hev.
  assert (∀ {A} (m : M A), preserves (λ w, (history (state w), uuidCalls w)) m →
          history (state (exec m (world p))) = history (state (world p))
          ∧ uuidCalls (exec m (world p)) = uuidCalls (world p)) as Huse.
  { intros A m Hm. specialize (Hm (world p)). cbn beta in Hm. by injection Hm as -> ->. }
  destruct ev; cbn [step] in Hstep.
  - injection Hstep as <-. apply Huse. unfold handleCodeChange. frame.
  - injection Hstep as <-. apply Huse. frame.
  - injection Hstep as <-. apply Huse. unfold handleReset. frame.
  - rewrite run_pair in Hstep. injection Hstep as <-. apply Huse. unfold handleAnalyze. frame.
  - rewrite run_pair in Hstep. injection Hstep as <-. apply Huse. unfold handleFix. frame.
  - injection Hstep as <-. apply Huse. unfold handleDownload. frame.
  - injection Hstep as <-. apply Huse. frame.
  - destruct (history (state (world p)) !! n); [|done]. injection Hstep as <-.
    apply Huse. unfold loadHistory. frame.
  - destruct reply as [failure|data]; [|by destruct (Hev n data)].
    destruct (pending p !! n) as [[r0 [|]| |]|]; try done; injection Hstep as <-;
      apply Huse; unfold handleFix_analyzed, handleFix_finally; frame.
  - destruct (pending p !! n) as [[| r0 |]|]; try done.
    rewrite run_pair in Hstep. injection Hstep as <-. apply Huse.
    unfold handleFix_settled, handleAnalyze, handleFix_finally. frame.
  - destruct (pending p !! n) as [[| |html]|]; try done. injection Hstep as <-.
    apply Huse. unfold handleDownload_settled. frame.
Qed.

Hypothesis randomUUID_inj : Inj (=) (=) randomUUID.

(** X13: when the history is full, a completed analysis drops its oldest
    entry: the new entry is followed by the nine most recent ones, and
    the entry that was last is no longer in the history. *)
Theorem X13_oldest_dropped (r : State) (data : AnalyzeResponse.t) (w : World)
    (oldest : HistoryItem.t) :
  historyWf randomUUID w →
  length (history (state w)) = 10%nat →
  last (history (state w)) = Some oldest →
  let w' := exec (handleAnalyze_settled randomUUID r (OkJson data)) w in
  history (state w')
  = HistoryItem.mk (randomUUID (uuidCalls w)) data :: take 9 (history (state w))
  ∧ length (history (state w')) = 10%nat
  ∧ oldest ∉ history (state w').
Proof.
  intros Hwf Hlen Hlast. cbn zeta.
  destruct (handleAnalyze_settled_ok randomUUID r data w) as (Hh & _).
  rewrite Hh. cbn [take]. split; [done|]. split.
  { cbn. rewrite length_take. lia. }
  pose proof (fresh_uuid randomUUID randomUUID_inj w Hwf) as Hfresh.
  destruct Hwf as (Hnd & _ & _). unfold historyIds in *.
  apply last_Some in Hlast as [l' Hl']. rewrite Hl' in *.
  rewrite length_app in Hlen. cbn in Hlen.
  rewrite take_app_length' by lia.
  rewrite fmap_app in Hnd, Hfresh. apply NoDup_app in Hnd as (_ & Hdisj & _).
  rewrite elem_of_cons. intros [->|Hin].
  - apply Hfresh. rewrite elem_of_app. right. cbn. by apply list_elem_of_singleton.
  - apply (Hdisj (HistoryItem.id oldest)); [by apply list_elem_of_fmap_2|].
    cbn. by apply list_elem_of_singleton.
Qed.

End Flags.

Lemma X10_witness :
  match Index.run pretty session Index.initialPage with
  | Some p =>
      (Index.isAnalyzing (Index.state (Index.world p)) = true
       → (1 ≤ Index.analysesOutstanding p)%nat)
      ∧ (Index.isFixing (Index.state (Index.world p)) = true ↔ Index.fixesInFlight p = 1%nat)
  | None => False
  end.
Proof.
  destruct (Index.run pretty session Index.initialPage) as [p|] eqn:Hrun.
  - apply (X10_flags pretty p).
    eapply run_reachable; [apply Index.reachable_init | exact Hrun].
  - vm_compute in Hrun. discriminate.
Defined.

Lemma X12_witness :
  Index.history (Index.state (Index.world
     (Index.mkPage (Index.exec Index.handleReset Index.initialWorld) [])))
  = Index.history (Index.state (Index.world Index.initialPage))
  ∧ Index.uuidCalls (Index.world
      (Index.mkPage (Index.exec Index.handleReset Index.initialWorld) []))
    = Index.uuidCalls (Index.world Index.initialPage).
Proof.
  apply (X12_history_frame pretty Index.ClickReset Index.initialPage); [reflexivity|].
  intros n data. discriminate.
Defined.

Lemma X13_witness :
  match Index.run pretty tenAnalyses Index.initialPage with
  | Some p =>
      last (Index.history (Index.state (Index.world p)))
      = Some (HistoryItem.mk (pretty 0%nat) sampleReply)
      ∧ HistoryItem.mk (pretty 0%nat) sampleReply
        ∉ Index.history (Index.state (Index.exec
            (Index.handleAnalyze_settled pretty Index.initialState (OkJson sampleReply))
            (Index.world p)))
  | None => False
  end.
Proof.
  destruct (Index.run pretty tenAnalyses Index.initialPage) as [p|] eqn:Hrun.
  - assert (Index.historyWf pretty (Index.world p)) as Hwf.
    { apply reachable_historyWf; [apply pretty_nat_inj|].
      eapply run_reachable; [apply Index.reachable_init | exact Hrun]. }
    vm_compute in Hrun. injection Hrun as <-.
    split; [reflexivity|].
    refine (proj2 (proj2 (X13_oldest_dropped pretty pretty_nat_inj Index.initialState
                            sampleReply _ _ Hwf _ _))); reflexivity.
  - vm_compute in Hrun. discriminate.
Defined.

(** ** More on the panels *)

Section Panels.

Import IssuesPanel.

Lemma keep_Only_eqb (s : Severity) (i : Issue) :
  keep (Only s) i = String.eqb (severityName (severity i)) (severityName s).
Proof. by destruct s. Qed.

(** X14: the three severity filters split the issues: every issue is
    visible under exactly one of them, so the visible lists of "Critical",
    "Major" and "Minor" together are a rearrangement of the list of
    issues and their lengths add up to its length. *)
Theorem X14_filters_partition (issues : list Issue) :
  visible issues (Only Critical) ++ visible issues (Only Major)
    ++ visible issues (Only Minor) ≡ₚ issues
  ∧ (length (visible issues (Only Critical)) + length (visible issues (Only Major))
     + length (visible issues (Only Minor)) = length issues)%nat.
Proof.
  assert (visible issues (Only Critical) ++ visible issues (Only Major)
            ++ visible issues (Only Minor) ≡ₚ issues) as Hperm.
  { unfold visible. induction issues as [|i issues IH]; [done|].
    cbn [List.filter]. rewrite !keep_Only_eqb.
    destruct (severity i); cbn; rewrite <- ?Permutation_middle; by constructor. }
  split; [done|]. apply Permutation_length in Hperm.
  rewrite !length_app in Hperm. lia.
Qed.

(** X15: filtering what is visible again with the same filter changes
    nothing, filtering it with another severity leaves nothing, and the
    order in which two filters are applied does not matter. *)
Theorem X15_filters_compose (issues : list Issue) (f g : Filter) :
  visible (visible issues f) f = visible issues f
  ∧ visible (visible issues f) g = visible (visible issues g) f
  ∧ (∀ s s', s ≠ s' → visible (visible issues (Only s)) (Only s') = []).
Proof.
  unfold visible. split; [|split].
  - induction issues as [|i issues IH]; [done|]. cbn [List.filter].
    destruct (keep f i) eqn:E; [|done]. cbn [List.filter]. by rewrite E, IH.
  - induction issues as [|i issues IH]; [done|]. cbn [List.filter].
    destruct (keep f i) eqn:Ef, (keep g i) eqn:Eg; cbn [List.filter];
      rewrite ?Ef, ?Eg, IH; done.
  - intros s s' Hne. induction issues as [|i issues IH]; [done|]. cbn [List.filter].
    destruct (keep (Only s) i) eqn:E; [|done]. cbn [List.filter]. rewrite IH.
    apply keep_Only in E. destruct (keep (Only s') i) eqn:E'; [|done].
    apply keep_Only in E'. congruence.
Qed.

(** X16: the three severities are told apart by each of icon, badge
    variant and colour, and a severity string that is neither "Critical"
    nor "Major" is styled as "Minor" is. *)
Theorem X16_severity_styles :
  (∀ s s' : Severity,
     getSeverityIcon (severityName s) = getSeverityIcon (severityName s')
     ∨ getSeverityVariant (severityName s) = getSeverityVariant (severityName s')
     ∨ getSeverityColor (severityName s) = getSeverityColor (severityName s') →
     s = s')
  ∧ (∀ other : string,
       other ≠ "Critical" → other ≠ "Major" →
       getSeverityIcon other = getSeverityIcon "Minor"
       ∧ getSeverityVariant other = getSeverityVariant "Minor"
       ∧ getSeverityColor other = getSeverityColor "Minor").
Proof.
  split.
  - intros [] [] [H|[H|H]]; done.
  - intros other Hc Hm. apply String.eqb_neq in Hc, Hm.
    unfold getSeverityIcon, getSeverityVariant, getSeverityColor. by rewrite Hc, Hm.
Qed.

(** X17: [getScoreColor] has three bands, success from 80, warning from
    60 up to 79 and destructive below 60, and a higher score never gets a
    worse colour. *)
Theorem X17_score_colour (score score' : Z) :
  (MetricsPanel.getScoreColor score = "text-success" ↔ (80 ≤ score)%Z)
  ∧ (MetricsPanel.getScoreColor score = "text-warning" ↔ (60 ≤ score < 80)%Z)
  ∧ (MetricsPanel.getScoreColor score = "text-destructive" ↔ (score < 60)%Z)
  ∧ ((score ≤ score')%Z →
     (MetricsPanel.rank (MetricsPanel.getScoreColor score)
      ≤ MetricsPanel.rank (MetricsPanel.getScoreColor score'))%nat).
Proof.
  unfold MetricsPanel.getScoreColor.
  destruct (Z.leb_spec 80 score), (Z.leb_spec 60 score),
    (Z.leb_spec 80 score'), (Z.leb_spec 60 score');
    repeat split; intros; try done; try lia; cbn; lia.
Qed.

End Panels.

(** ** What is rendered *)

Section Rendering.

Import Index.

(** X18: after [handleReset] the history is kept but out of reach: no
    [Load] button, no issue and no download button is rendered until an
    analysis succeeds again, and with "auto" selected the editor falls
    back to JavaScript. *)
Theorem X18_reset_view (w : World) :
  let s' := state (exec handleReset w) in
  history s' = history (state w)
  ∧ loadButtons s' = []
  ∧ issuesShown s' = []
  ∧ downloadsShown s' = false
  ∧ rightColumn s' = (if isAnalyzing (state w) then Analyzing else ReadyToAnalyze)
  ∧ (language (state w) = "auto" → editorLanguage s' = "javascript").
Proof.
  cbn zeta. unfold loadButtons, issuesShown, rightColumn, downloadsShown, editorLanguage,
    handleReset. run_handler.
  split; [done|]. split; [by destruct (isAnalyzing (state w))|].
  split; [by destruct (isAnalyzing (state w))|]. split; [done|]. split; [done|].
  by intros ->.
Qed.

(** X20: asking for a report never changes the state of the component.
    The request goes out for any editor text, blank or not, and carries
    the text and the language of the render as they are; a file is handed
    to the browser exactly when the reply is good, and a failure is
    logged and reported instead. *)
Theorem X20_downloads (html : bool) (r : State) (reply : Reply ReportResponse.t)
    (w : World) :
  let url := if html then "/api/report/html" else "/api/report" in
  let w1 := exec (handleDownload html r) w in
  let w2 := exec (handleDownload_settled html reply) w1 in
  state w2 = state w
  ∧ fixTimeoutRef w2 = fixTimeoutRef w
  ∧ trace w1 = trace w ++ [fetch url (RequestBody.mk (code r) (language r))]
  ∧ match reply with
    | OkJson rep =>
        ∃ mime ok, trace w2 = trace w1 ++ [download (ReportResponse.filename rep)
                                            (ReportResponse.content rep) mime;
                                          toast_success ok]
    | Failed failure =>
        ∃ failed, trace w2 = trace w1 ++ [console_error (thrown "Report" failure);
                                          toast_error failed]
    end.
Proof.
  cbn zeta. unfold handleDownload, handleDownload_settled.
  repeat split; try by destruct reply.
  destruct reply as [failure|rep]; run_handler; eexists; try eexists;
    by rewrite <- app_assoc.
Qed.

End Rendering.
